(** * Keypoint sketches: pose lookup, geometry and the threshold counter

    A shallow embedding of the three p5.js / ml5.js sketches of the
    repository:

    - [HandRaiser]  : examples/MoveNet_handRaiser/sketch.js
    - [BodyPose]    : the single-person MoveNet measuring sketch
    - [HandPose]    : the ml5 handPose example

    JavaScript numbers that carry measurements (coordinates, confidences,
    distances, angles) are IEEE 754 binary64 values and are modelled by
    the primitive type [float]: its [+], [-], [*], [/], [sqrt] and
    comparisons are the correctly rounded binary64 operations that
    JavaScript's operators and [Math.sqrt] are.  The two numbers that only
    ever hold small integers ([crossCount], [bodyPointIndex]) and array
    indices are modelled in [Z]; binary64 arithmetic is exact on them far
    beyond any value a sketch can reach (2^53).

    Calls that only paint on the canvas (fill, stroke, circle, line, text,
    image, ...) or write to the console are not part of the state any
    function reads back and are left out of the three modules above; the
    modules [HandRaiserCanvas] and [BodyPoseCanvas] give the same functions
    together with the calls they make. *)

From Stdlib Require Import ZArith List Bool String Floats Lia.
Import ListNotations.

Open Scope Z_scope.

(** ** The JavaScript fragment the sketches use *)

Module Js.

(** A reference to an object or array, or one of the two absent values. *)
Inductive ref (A : Type) : Type :=
| undefined
| null
| obj (a : A).
Arguments undefined {A}.
Arguments null {A}.
Arguments obj {A} a.

(** [!!r]: objects and arrays are truthy, [undefined] and [null] are not. *)
Definition truthy {A} (r : ref A) : bool :=
  match r with obj _ => true | _ => false end.

(** [r != null]: the loose comparison rejects both absent values. *)
Definition not_nullish {A} (r : ref A) : bool := truthy r.

(** [r || d] with an object default. *)
Definition or_else {A} (r : ref A) (d : A) : A :=
  match r with obj a => a | _ => d end.

(** [r || null]. *)
Definition or_null {A} (r : ref A) : ref A :=
  match r with obj a => obj a | _ => null end.

Inductive error : Type := TypeError.

(** The result of running a function body. *)
Inductive outcome (A : Type) : Type :=
| returns (a : A)
| throws (e : error).
Arguments returns {A} a.
Arguments throws {A} e.

Definition bind {A B} (m : outcome A) (k : A -> outcome B) : outcome B :=
  match m with
  | returns a => k a
  | throws e => throws e
  end.

(** Reading a property of [r]: a [TypeError] when [r] is absent. *)
Definition member {A B} (property : A -> B) (r : ref A) : outcome B :=
  match r with
  | obj a => returns (property a)
  | _ => throws TypeError
  end.

(** [xs.length] *)
Definition length {A} (xs : list A) : Z := Z.of_nat (List.length xs).

(** [xs[i]]: [undefined] outside the array. *)
Definition index {A} (xs : list A) (i : Z) : ref A :=
  if i <? 0 then undefined
  else match nth_error xs (Z.to_nat i) with
       | Some a => obj a
       | None => undefined
       end.

End Js.

Import Js.

Notation "x <- m ;; k" := (Js.bind m (fun x => k))
  (at level 61, m at next level, right associativity).

(** ** Data delivered by the ml5 models *)

(** Anything with a position on the canvas: the sketches read [.x] and [.y]
    of keypoints and of plain [{x, y}] objects alike. *)
Class Located (A : Type) : Type := { x : A -> float; y : A -> float }.

Record Point : Type := mkPoint { point_x : float; point_y : float }.

Record Keypoint : Type := mkKeypoint {
  keypoint_x : float;
  keypoint_y : float;
  confidence : float;
  name : ref string
}.

#[export] Instance Located_Point : Located Point :=
  {| x := point_x; y := point_y |}.
#[export] Instance Located_Keypoint : Located Keypoint :=
  {| x := keypoint_x; y := keypoint_y |}.

Record Box : Type := mkBox {
  xMin : float; yMin : float; xMax : float; yMax : float;
  width : float; height : float
}.

(** One detected subject (a person or a hand) of one inference. *)
Record Detection : Type := mkDetection {
  keypoints : ref (list Keypoint);
  box : ref Box
}.

(** ** [getKeypoint], verbatim in both MoveNet sketches

    The global [poses] it reads is passed in. *)
Definition getKeypoint (poses : ref (list Detection)) (pointIndex personIndex : Z)
  : outcome (ref Keypoint) :=
  if negb (truthy poses) then returns null else
  len <- member Js.length poses ;;
  if len =? 0 then returns null else
  person <- member (fun ps => index ps personIndex) poses ;;
  if negb (truthy person) then returns null else
  kps <- member keypoints person ;;
  if negb (truthy kps) then returns null else
  kp <- member (fun ks => index ks pointIndex) kps ;;
  returns (or_null kp).

(** ** examples/MoveNet_handRaiser/sketch.js *)

Module HandRaiser.

(** The sketch's mutable globals. *)
Record State : Type := mkState {
  poses : ref (list Detection);
  showVideo : bool;
  crossCount : Z;
  lastAboveThreshold : bool
}.

(** Globals that are initialised once and never assigned again. *)
Definition confidenceThreshold : float := 0x1.999999999999ap-3%float. (* 0.2 *)
Definition thresholdIndex : Z := 0.   (* nose *)
Definition trackingIndex : Z := 10.   (* right wrist *)

Definition init : State :=
  {| poses := obj []; showVideo := true;
     crossCount := 0; lastAboveThreshold := false |}.

(** [poses = results || []] *)
Definition gotPoses (results : ref (list Detection)) (s : State) : State :=
  {| poses := obj (or_else results []);
     showVideo := showVideo s;
     crossCount := crossCount s;
     lastAboveThreshold := lastAboveThreshold s |}.

Definition checkThresholdCross (thresholdPoint trackingPoint : ref Keypoint)
    (s : State) : State :=
  match thresholdPoint, trackingPoint with
  | obj th, obj tr =>
      let isAboveThreshold := (y tr <? y th)%float in
      let count :=
        if isAboveThreshold && negb (lastAboveThreshold s)
        then crossCount s + 1
        else crossCount s in
      {| poses := poses s;
         showVideo := showVideo s;
         crossCount := count;
         lastAboveThreshold := isAboveThreshold |}
  | _, _ => s
  end.

(** [p.confidence > confidenceThreshold] *)
Definition confident (p : Keypoint) : bool :=
  (confidenceThreshold <? confidence p)%float.

Definition draw (s : State) : outcome State :=
  len <- member Js.length (poses s) ;;
  if 0 <? len then
    thresholdPoint <- getKeypoint (poses s) thresholdIndex 0 ;;
    trackingPoint <- getKeypoint (poses s) trackingIndex 0 ;;
    match thresholdPoint, trackingPoint with
    | obj th, obj tr =>
        if confident th && confident tr
        then returns (checkThresholdCross thresholdPoint trackingPoint s)
        else returns s
    | _, _ => returns s
    end
  else returns s.

(** Space toggles the video; [s] / [S] only exports a picture. *)
Definition keyPressed (key : string) (s : State) : State :=
  if String.eqb key " " then
    {| poses := poses s;
       showVideo := negb (showVideo s);
       crossCount := crossCount s;
       lastAboveThreshold := lastAboveThreshold s |}
  else s.

(** What the browser can make the sketch do. *)
Inductive Event : Type :=
| Detected (results : ref (list Detection))
| Frame
| Key (key : string).

Definition step (e : Event) (s : State) : outcome State :=
  match e with
  | Detected results => returns (gotPoses results s)
  | Frame => draw s
  | Key key => returns (keyPressed key s)
  end.

Fixpoint run (es : list Event) (s : State) : outcome State :=
  match es with
  | [] => returns s
  | e :: es' => s' <- step e s ;; run es' s'
  end.

(** One camera frame with usable data: the model delivers [results] and
    the next [draw] looks at them. *)
Definition frame (results : ref (list Detection)) : list Event :=
  [Detected results; Frame].

End HandRaiser.

(** ** What the browser and p5.js supply

    [Math.atan2] is implementation-approximated in ECMAScript, and the key
    codes are constants of p5.js: both are parameters of the embedding. *)
Class Host : Type := {
  atan2 : float -> float -> float;
  LEFT_ARROW : Z;
  RIGHT_ARROW : Z
}.

(** [Math.PI], the binary64 value nearest to pi. *)
Definition PI : float := 0x1.921fb54442d18p+1%float.

(** ** The single-person MoveNet measuring sketch *)

Module BodyPose.

Record State : Type := mkState {
  poses : ref (list Detection);
  boundingBoxes : list (ref Box);
  centroid : Point;
  showVideo : bool;
  bodyPointIndex : Z;
  fixedPoint : Point
}.

Definition confidenceThreshold : float := 0x1.999999999999ap-3%float. (* 0.2 *)

Definition init : State :=
  {| poses := obj [];
     boundingBoxes := [];
     centroid := mkPoint 0 0;
     showVideo := true;
     bodyPointIndex := 2;
     fixedPoint := mkPoint 320 240 |}.

Definition gotPoses (results : ref (list Detection)) (s : State) : State :=
  let poses' := or_else results [] in
  let boundingBoxes' := filter not_nullish (map box poses') in
  let centroid' :=
    match index boundingBoxes' 0 with
    | obj (obj b) =>
        mkPoint ((xMin b + xMax b) / 2) ((yMin b + yMax b) / 2)
    | _ => mkPoint 0 0
    end in
  {| poses := obj poses';
     boundingBoxes := boundingBoxes';
     centroid := centroid';
     showVideo := showVideo s;
     bodyPointIndex := bodyPointIndex s;
     fixedPoint := fixedPoint s |}.

Definition measureDistance {A B} `{Located A} `{Located B}
    (point1 : ref A) (point2 : ref B) : ref float :=
  match point1, point2 with
  | obj p1, obj p2 =>
      let dx := (x p2 - x p1)%float in
      let dy := (y p2 - y p1)%float in
      let distance := sqrt (dx * dx + dy * dy) in
      obj distance
  | _, _ => null
  end.

Definition measureAngle `{Host} {A B} `{Located A} `{Located B}
    (basePoint : ref A) (endPoint : ref B) : ref float :=
  match basePoint, endPoint with
  | obj bp, obj ep =>
      let dx := (x ep - x bp)%float in
      let dy := (y ep - y bp)%float in
      let angle := (atan2 dy dx * 180 / PI)%float in
      let angle := if (angle <? 0)%float then (angle + 360)%float else angle in
      obj angle
  | _, _ => null
  end.

Definition mouseClicked (mouseX mouseY : float) (s : State) : State :=
  {| poses := poses s;
     boundingBoxes := boundingBoxes s;
     centroid := centroid s;
     showVideo := showVideo s;
     bodyPointIndex := bodyPointIndex s;
     fixedPoint := mkPoint mouseX mouseY |}.

Definition set_showVideo (b : bool) (s : State) : State :=
  {| poses := poses s;
     boundingBoxes := boundingBoxes s;
     centroid := centroid s;
     showVideo := b;
     bodyPointIndex := bodyPointIndex s;
     fixedPoint := fixedPoint s |}.

Definition set_bodyPointIndex (i : Z) (s : State) : State :=
  {| poses := poses s;
     boundingBoxes := boundingBoxes s;
     centroid := centroid s;
     showVideo := showVideo s;
     bodyPointIndex := i;
     fixedPoint := fixedPoint s |}.

(** The three tests run one after the other; [%] is JavaScript's
    remainder, which takes the sign of the dividend ([Z.rem]). *)
Definition keyPressed `{Host} (key : string) (keyCode : Z) (s : State) : State :=
  let s1 := if String.eqb key " " then set_showVideo (negb (showVideo s)) s else s in
  let s2 := if keyCode =? LEFT_ARROW
            then set_bodyPointIndex (Z.rem (bodyPointIndex s1 - 1 + 17) 17) s1
            else s1 in
  let s3 := if keyCode =? RIGHT_ARROW
            then set_bodyPointIndex (Z.rem (bodyPointIndex s2 + 1) 17) s2
            else s2 in
  s3.

(** What one [draw] measures: the body point it asked for, and the
    distance and angle from the reference point to it. *)
Record Measurement : Type := mkMeasurement {
  requested : Z;
  distance : ref float;
  angle : ref float
}.

Definition draw `{Host} (s : State) : outcome (option Measurement) :=
  let referencePoint := mkPoint (x (fixedPoint s)) (y (fixedPoint s)) in
  len <- member Js.length (poses s) ;;
  if 0 <? len then
    bodyPoint <- getKeypoint (poses s) (bodyPointIndex s) 0 ;;
    match bodyPoint with
    | obj bp =>
        if (confidenceThreshold <? confidence bp)%float then
          let distance := measureDistance (obj referencePoint) bodyPoint in
          let angle := measureAngle (obj referencePoint) bodyPoint in
          returns (Some (mkMeasurement (bodyPointIndex s) distance angle))
        else returns None
    | _ => returns None
    end
  else returns None.

Inductive Event : Type :=
| Detected (results : ref (list Detection))
| Mouse (mouseX mouseY : float)
| Key (key : string) (keyCode : Z).

Definition step `{Host} (e : Event) (s : State) : State :=
  match e with
  | Detected results => gotPoses results s
  | Mouse mouseX mouseY => mouseClicked mouseX mouseY s
  | Key key keyCode => keyPressed key keyCode s
  end.

Definition run `{Host} (es : list Event) (s : State) : State :=
  fold_left (fun s e => step e s) es s.

End BodyPose.

(** ** The ml5 handPose example *)

Module HandPose.

Record State : Type := mkState {
  hands : ref (list Detection);
  showVideo : bool
}.

Definition init : State := {| hands := obj []; showVideo := true |}.

(** [hands = results] *)
Definition gotHands (results : ref (list Detection)) (s : State) : State :=
  {| hands := results; showVideo := showVideo s |}.

(** The circles one [draw] paints, hand by hand and keypoint by keypoint. *)
Fixpoint circles (hs : list Detection) : outcome (list (float * float)) :=
  match hs with
  | [] => returns []
  | hand :: hs' =>
      ks <- member (fun ks => ks) (keypoints hand) ;;
      rest <- circles hs' ;;
      returns (map (fun keypoint => (x keypoint, y keypoint)) ks ++ rest)
  end.

Definition draw (s : State) : outcome (list (float * float)) :=
  hs <- member (fun hs => hs) (hands s) ;;
  circles hs.

(** Space toggles the video; [s] / [S] only exports a picture. *)
Definition keyPressed (key : string) (s : State) : State :=
  if String.eqb key " " then
    {| hands := hands s; showVideo := negb (showVideo s) |}
  else s.

End HandPose.

(** ** What the sketches paint

    The p5.js calls a function makes, in order, with their arguments.  The
    text a call prints is kept as the pieces of its template literal,
    numbers unformatted. *)

Module Canvas.

Inductive Colour : Type :=
| Gray (v : Z)
| Rgb (r g b : Z)
| Rgba (r g b a : Z).

Inductive Align : Type := LEFT | CENTER | TOP.

Inductive Piece : Type :=
| Lit (s : string)                  (* literal text *)
| Int (n : Z)                       (* [${n}] of an integer *)
| Rounded (v : float)               (* [${Math.round(v)}] *)
| Fixed (v : float) (digits : Z).   (* [${v.toFixed(digits)}] *)

Inductive Call : Type :=
| background (c : Colour)
| image_video (px py w h : float)
| fill (c : Colour)
| noStroke
| stroke (c : Colour)
| strokeWeight (w : Z)
| circle (px py d : float)
| rect (px py w h : float)
| line (x1 y1 x2 y2 : float)
| textAlign (horizontal vertical : Align)
| textSize (size : Z)
| text (content : list Piece) (px py : float)
| setLineDash (pattern : list Z)
| console_log (message : string)
| noFill
| arc (px py w h start stop : float)
| push
| pop
| translate (px py : float)
| rotate (angle : float).

(** p5's [width] and [height], set by [createCanvas(640, 480)] in [setup]. *)
Definition canvas_width : float := 640%float.
Definition canvas_height : float := 480%float.

End Canvas.

(** ** examples/MoveNet_handRaiser/sketch.js, with what it paints *)

Module HandRaiserCanvas.
Import Canvas.
Import HandRaiser.

(** [point && typeof point.x === 'number' && typeof point.y === 'number']:
    the coordinates of a [Keypoint] are numbers. *)
Definition isValidPoint (point : ref Keypoint) : bool := truthy point.

(** [if (point.name)]: a non-empty string. *)
Definition has_name (point : Keypoint) : option string :=
  match name point with
  | obj n => if String.eqb n "" then None else Some n
  | _ => None
  end.

Definition newline : string := String (Ascii.ascii_of_nat 10) EmptyString.

(** A [Keypoint] has no [index] property, so the [point.index != null]
    branch is not taken. *)
Definition showPoint (point : ref Keypoint) (pointColor : Colour) : list Call :=
  match point with
  | obj pt =>
      let displayText :=
        [Lit "("; Rounded (x pt); Lit ", "; Rounded (y pt); Lit ")"] in
      let displayText :=
        match has_name pt with
        | Some n => Lit n :: Lit newline :: displayText
        | None => displayText
        end in
      [fill pointColor; noStroke; circle (x pt) (y pt) 20;
       fill (Rgb 255 255 0); textAlign CENTER TOP; textSize 8;
       text displayText (x pt) (y pt + 15)%float]
  | _ => []
  end.

Definition drawThresholdArea (thresholdPoint : ref Keypoint) : list Call :=
  match thresholdPoint with
  | obj th => [noStroke; fill (Rgba 255 0 0 70); rect 0 0 canvas_width (y th)]
  | _ => []
  end.

Definition drawThresholdLine (thresholdPoint : ref Keypoint) : list Call :=
  match thresholdPoint with
  | obj th =>
      [stroke (Rgb 255 0 0); strokeWeight 2; setLineDash [5; 5];
       line 0 (y th) canvas_width (y th); setLineDash []]
  | _ => []
  end.

(** [checkThresholdCross] with its console message. *)
Definition checkThresholdCross (thresholdPoint trackingPoint : ref Keypoint)
    (s : State) : State * list Call :=
  match thresholdPoint, trackingPoint with
  | obj th, obj tr =>
      let isAboveThreshold := (y tr <? y th)%float in
      let crossed := isAboveThreshold && negb (lastAboveThreshold s) in
      ({| poses := poses s;
          showVideo := showVideo s;
          crossCount := if crossed then crossCount s + 1 else crossCount s;
          lastAboveThreshold := isAboveThreshold |},
       if crossed then [console_log "Threshold crossed!"] else [])
  | _, _ => (s, [])
  end.

Definition displayThresholdData (thresholdPoint trackingPoint : ref Keypoint)
    (s : State) : list Call :=
  [noStroke; fill (Gray 0); textAlign LEFT TOP; textSize 16;
   text [Lit "Threshold Crosses: "; Int (crossCount s)] 10 30]
  ++ match thresholdPoint, trackingPoint with
     | obj th, obj tr =>
         [text [Lit "Threshold Y: "; Fixed (y th) 2] 10 50;
          text [Lit "Tracking Y: "; Fixed (y tr) 2] 10 70;
          text [Lit "Position: ";
                Lit (if (y tr <? y th)%float then "ABOVE" else "BELOW");
                Lit " threshold"] 10 90]
     | _, _ => []
     end.

(** [draw]: the state it leaves and the calls it makes. *)
Definition draw (s : State) : outcome (State * list Call) :=
  let calls :=
    background (Gray 255)
    :: (if showVideo s then [image_video 0 0 canvas_width canvas_height] else []) in
  len <- member Js.length (poses s) ;;
  if 0 <? len then
    thresholdPoint <- getKeypoint (poses s) thresholdIndex 0 ;;
    trackingPoint <- getKeypoint (poses s) trackingIndex 0 ;;
    match thresholdPoint, trackingPoint with
    | obj th, obj tr =>
        if confident th && confident tr then
          let calls := calls ++ showPoint thresholdPoint (Rgb 255 0 0) in
          let calls := calls ++ showPoint trackingPoint (Rgb 0 255 0) in
          let calls := calls ++ drawThresholdArea thresholdPoint in
          let calls := calls ++ drawThresholdLine thresholdPoint in
          let '(s', logged) := checkThresholdCross thresholdPoint trackingPoint s in
          let calls := calls ++ logged in
          let calls := calls ++ displayThresholdData thresholdPoint trackingPoint s' in
          returns (s', calls)
        else returns (s, calls)
    | _, _ => returns (s, calls)
    end
  else returns (s, calls).

(** An event sequence, with every call made on the way. *)
Fixpoint run (es : list Event) (s : State) : outcome (State * list Call) :=
  match es with
  | [] => returns (s, [])
  | Detected results :: es' => run es' (gotPoses results s)
  | Frame :: es' =>
      painted <- draw s ;;
      rest <- run es' (fst painted) ;;
      returns (fst rest, snd painted ++ snd rest)
  | Key key :: es' => run es' (keyPressed key s)
  end.

(** The dash pattern in force after a list of calls, [dash] before it. *)
Definition dash_after (calls : list Call) (dash : list Z) : list Z :=
  fold_left (fun d c => match c with setLineDash pattern => pattern | _ => d end)
            calls dash.

(** The console messages among the calls, in order. *)
Definition messages (calls : list Call) : list string :=
  flat_map (fun c => match c with console_log message => [message] | _ => [] end)
           calls.

(** The calls that put text or shapes on the canvas over the cleared
    background and the video. *)
Definition marks (calls : list Call) : list Call :=
  filter (fun c => match c with
                   | circle _ _ _ | rect _ _ _ _ | line _ _ _ _ | text _ _ _ => true
                   | _ => false
                   end) calls.

End HandRaiserCanvas.

(** ** The measuring sketch, with what it paints *)

Module BodyPoseCanvas.
Import Canvas.
Import BodyPose.

Definition isValidPoint {A} (point : ref A) : bool := truthy point.

Definition has_name (point : Keypoint) : option string :=
  match name point with
  | obj n => if String.eqb n "" then None else Some n
  | _ => None
  end.

Definition newline : string := String (Ascii.ascii_of_nat 10) EmptyString.

(** The degree sign, as the two bytes of its UTF-8 encoding. *)
Definition degree_sign : string :=
  String (Ascii.ascii_of_nat 194) (String (Ascii.ascii_of_nat 176) EmptyString).

(** [showPoint(point, pointColor)]; [index] is the point's [index]
    property, which [showAllPoints] sets and nothing else does. *)
Definition showPoint (point : ref Keypoint) (index : ref Z) (pointColor : Colour)
  : list Call :=
  match point with
  | obj pt =>
      let displayText :=
        [Lit "("; Rounded (x pt); Lit ", "; Rounded (y pt); Lit ")"] in
      let displayText :=
        match has_name pt with
        | Some n => Lit n :: Lit newline :: displayText
        | None => displayText
        end in
      [fill pointColor; noStroke; circle (x pt) (y pt) 20]
      ++ match index with
         | obj i => [fill (Gray 255); textAlign CENTER CENTER; textSize 10;
                     text [Int i] (x pt) (y pt)]
         | _ => []
         end
      ++ [fill (Rgb 255 255 0); textAlign CENTER TOP; textSize 8;
          text displayText (x pt) (y pt + 15)%float]
  | _ => []
  end.

(** [showCentroid()], reading the global [centroid]. *)
Definition showCentroid (s : State) : list Call :=
  if isValidPoint (obj (centroid s)) then
    let c := centroid s in
    [fill (Rgb 255 0 0); noStroke; circle (x c) (y c) 15;
     fill (Gray 255); textAlign CENTER CENTER; textSize 10;
     text [Lit "C"] (x c) (y c);
     fill (Rgb 255 255 0); textAlign CENTER TOP; textSize 8;
     text [Lit "Centroid: ("; Rounded (x c); Lit ", "; Rounded (y c); Lit ")"]
          (x c) (y c + 15)%float]
  else [].

(** The body of the [boundingBoxes.forEach] callback. *)
Definition outline (bx : ref Box) (i : Z) : list Call :=
  match bx with
  | obj b =>
      [noFill; stroke (Rgb 0 255 0); strokeWeight 2;
       rect (xMin b) (yMin b) (width b) (height b);
       fill (Rgb 0 255 0); noStroke; textAlign CENTER CENTER; textSize 12;
       text [Lit "Width: "; Rounded (width b); Lit "px"]
            (xMin b + width b / 2)%float (yMin b - 10)%float;
       push;
       translate (xMin b - 10)%float (yMin b + height b / 2)%float;
       rotate (- PI / 2)%float;
       text [Lit "Height: "; Rounded (height b); Lit "px"] 0 0;
       pop;
       text [Lit "Person "; Int i] (xMin b + width b / 2)%float (yMin b + 20)%float]
  | _ => []
  end.

(** [xs.forEach((x, i) => ...)], the indices counted from [i]. *)
Fixpoint forEach {A} (body : A -> Z -> list Call) (xs : list A) (i : Z) : list Call :=
  match xs with
  | [] => []
  | a :: rest => body a i ++ forEach body rest (i + 1)
  end.

(** The [for] loop over the keypoints of one person: [remaining] rounds
    from [pointIndex] on. *)
Fixpoint keypoint_loop (poses : ref (list Detection)) (personIndex pointIndex : Z)
    (remaining : nat) : outcome (list Call) :=
  match remaining with
  | O => returns []
  | S remaining' =>
      point <- getKeypoint poses pointIndex personIndex ;;
      let here :=
        match point with
        | obj pt =>
            if (confidenceThreshold <? confidence pt)%float
            then showPoint point (obj pointIndex) (Rgb 0 255 0)
            else []
        | _ => []
        end in
      rest <- keypoint_loop poses personIndex (pointIndex + 1) remaining' ;;
      returns (here ++ rest)
  end.

(** [poses.forEach((pose, personIndex) => ...)] from [personIndex] on. *)
Fixpoint person_loop (poses : ref (list Detection)) (persons : list Detection)
    (personIndex : Z) : outcome (list Call) :=
  match persons with
  | [] => returns []
  | _ :: rest =>
      here <- keypoint_loop poses personIndex 0 17 ;;
      others <- person_loop poses rest (personIndex + 1) ;;
      returns (here ++ others)
  end.

Definition showAllPoints (s : State) : outcome (list Call) :=
  let boxes := forEach outline (boundingBoxes s) 0 in
  persons <- member (fun ps => ps) (poses s) ;;
  points <- person_loop (poses s) persons 0 ;;
  returns (boxes ++ points).

(** What [measureDistance] paints besides returning the distance. *)
Definition measureDistance_calls {A B} `{Located A} `{Located B}
    (point1 : ref A) (point2 : ref B) : list Call :=
  match point1, point2, measureDistance point1 point2 with
  | obj p1, obj p2, obj distance =>
      let midX := ((x p1 + x p2) / 2)%float in
      let midY := ((y p1 + y p2) / 2)%float in
      [stroke (Rgb 255 165 0); line (x p1) (y p1) (x p2) (y p2);
       noStroke; fill (Rgb 255 165 0); textSize 12;
       text [Rounded distance; Lit "px"] midX midY]
  | _, _, _ => []
  end.

(** What [measureAngle] paints besides returning the angle. *)
Definition measureAngle_calls `{Host} {A B} `{Located A} `{Located B}
    (basePoint : ref A) (endPoint : ref B) : list Call :=
  match basePoint, endPoint, measureAngle basePoint endPoint with
  | obj bp, obj ep, obj angle =>
      let arcRadius := 30%float in
      [noFill; stroke (Rgb 255 165 0);
       arc (x bp) (y bp) (arcRadius * 2) (arcRadius * 2) 0 (angle * PI / 180);
       stroke (Rgba 255 165 0 127);
       line (x bp) (y bp) (x bp + arcRadius) (y bp);
       noStroke; fill (Rgb 255 165 0); textSize 12;
       text [Rounded angle; Lit degree_sign] (x bp + arcRadius + 5) (y bp)]
  | _, _, _ => []
  end.

(** [draw]: what it measures and the calls it makes. *)
Definition draw `{Host} (s : State) : outcome (option Measurement * list Call) :=
  let referencePoint := mkPoint (x (fixedPoint s)) (y (fixedPoint s)) in
  let calls :=
    background (Gray 255)
    :: (if showVideo s then [image_video 0 0 canvas_width canvas_height] else [])
    ++ [fill (Rgb 255 165 0); circle (x referencePoint) (y referencePoint) 10] in
  len <- member Js.length (poses s) ;;
  if 0 <? len then
    bodyPoint <- getKeypoint (poses s) (bodyPointIndex s) 0 ;;
    match bodyPoint with
    | obj bp =>
        if (confidenceThreshold <? confidence bp)%float then
          let calls := calls ++ showPoint bodyPoint undefined (Rgb 0 255 0) in
          let distance := measureDistance (obj referencePoint) bodyPoint in
          let calls := calls ++ measureDistance_calls (obj referencePoint) bodyPoint in
          let angle := measureAngle (obj referencePoint) bodyPoint in
          let calls := calls ++ measureAngle_calls (obj referencePoint) bodyPoint in
          returns (Some (mkMeasurement (bodyPointIndex s) distance angle), calls)
        else returns (None, calls)
    | _ => returns (None, calls)
    end
  else returns (None, calls).

End BodyPoseCanvas.

(** * Vocabulary of the statements *)

(** The number of false-to-true steps in a sequence of readings that
    starts after the reading [prev]. *)
Fixpoint rising_edges (prev : bool) (readings : list bool) : Z :=
  match readings with
  | [] => 0
  | r :: rest => (if r && negb prev then 1 else 0) + rising_edges r rest
  end.

Module HandRaiserTerms.
Import HandRaiser.

(** The detections [ps] show both points of interest, each with a
    confidence above the threshold: [th] at [thresholdIndex] and [tr] at
    [trackingIndex] of the first person. *)
Definition shows (ps : list Detection) (th tr : Keypoint) : Prop :=
  getKeypoint (obj ps) thresholdIndex 0 = returns (obj th) /\
  getKeypoint (obj ps) trackingIndex 0 = returns (obj tr) /\
  (confidenceThreshold <? confidence th)%float = true /\
  (confidenceThreshold <? confidence tr)%float = true.

(** A looked-up point that [draw] must not use: absent, or with a
    confidence that does not exceed the threshold. *)
Definition unusable (p : ref Keypoint) : Prop :=
  p = null \/
  exists k, p = obj k /\ (confidence k <=? confidenceThreshold)%float = true.

(** A frame with usable data, and what it shows. *)
Record Sighting : Type := mkSighting {
  seen : list Detection;
  thresholdPoint : Keypoint;
  trackingPoint : Keypoint
}.

Definition usable (f : Sighting) : Prop :=
  shows (seen f) (thresholdPoint f) (trackingPoint f).

(** [trackingPoint.y < thresholdPoint.y] *)
Definition isAbove (f : Sighting) : bool :=
  (y (trackingPoint f) <? y (thresholdPoint f))%float.

Definition events (fs : list Sighting) : list Event :=
  flat_map (fun f => frame (obj (seen f))) fs.

(** What the model delivered leaves [draw] without usable data: one of the
    two points it looks up is [unusable]. *)
Definition blind (results : ref (list Detection)) : Prop :=
  exists thp trp,
    getKeypoint (obj (or_else results [])) thresholdIndex 0 = returns thp /\
    getKeypoint (obj (or_else results [])) trackingIndex 0 = returns trp /\
    (unusable thp \/ unusable trp).

(** A state the sketch can be in: [poses] holds an array. *)
Definition sound (s : State) : Prop := exists ps, poses s = obj ps.

End HandRaiserTerms.

Module BodyPoseTerms.

(** The box [gotPoses] takes the centroid from: that of the first detection
    that has one. *)
Fixpoint first_box (ps : list Detection) : option Box :=
  match ps with
  | [] => None
  | p :: rest =>
      match box p with
      | obj b => Some b
      | _ => first_box rest
      end
  end.

(** A pixel position: both coordinates are finite numbers. *)
Definition on_canvas {A} `{Located A} (p : A) : Prop :=
  is_finite (x p) = true /\ is_finite (y p) = true.

(** A first-order stand-in for [Math.atan2], used to exhibit inputs.  Where
    the ordinate is a zero and the abscissa is [+0] or positive it returns
    the ordinate, as ECMAScript prescribes; where the ordinate is
    negligible against a positive abscissa it returns the quotient, which
    is within one unit in the last place of the arctangent; elsewhere it
    gives no answer (NaN). *)
Definition atan2_near_axis (oy ox : float) : float :=
  if is_zero oy && (0 <? 1 / ox)%float then oy
  else if (0 <? ox)%float && (abs oy <? ox * 0x1p-30)%float then (oy / ox)%float
  else nan.

(** A host with that stand-in and the key codes of p5.js. *)
Definition browser : Host :=
  {| atan2 := atan2_near_axis; LEFT_ARROW := 37; RIGHT_ARROW := 39 |}.

End BodyPoseTerms.

(** Two results that are opposite numbers, or two zeros of any signs. *)
Definition mirrored (a b : spec_float) : Prop :=
  b = SFopp a \/ (exists sa sb, a = S754_zero sa /\ b = S754_zero sb).

(** Sample data for the examples below. *)
Module Samples.
Import HandRaiserTerms.

(** A keypoint seen with confidence 0.9. *)
Definition seen_at (px py : float) : Keypoint :=
  mkKeypoint px py 0x1.ccccccccccccdp-1 undefined.

(** A keypoint seen with confidence 0.1. *)
Definition guessed_at (px py : float) : Keypoint :=
  mkKeypoint px py 0x1.999999999999ap-4 undefined.

(** One person with all 17 MoveNet keypoints: the nose (index 0) at height
    [noseY], the right wrist (index 10) at height [wristY]. *)
Definition person (noseY wristY : float) : Detection :=
  mkDetection
    (obj (seen_at 320 noseY :: repeat (seen_at 300 200) 9
          ++ seen_at 400 wristY :: repeat (seen_at 300 400) 6))
    (obj (mkBox 250 40 450 460 200 420)).

Definition watching (noseY wristY : float) : Sighting :=
  mkSighting [person noseY wristY] (seen_at 320 noseY) (seen_at 400 wristY).

Definition hand_down : Sighting := watching 100 300.
Definition hand_up : Sighting := watching 100 50.

(** A person whose keypoints array is empty. *)
Definition hidden_person : Detection := mkDetection (obj []) undefined.

(** A person whose nose is seen and whose other keypoints are guesses. *)
Definition unsure_person : Detection :=
  mkDetection
    (obj (seen_at 320 100 :: repeat (guessed_at 300 200) 16))
    undefined.

End Samples.

(** A number that is not NaN and carries the sign [s]: a zero, a finite
    number or an infinity. *)
Definition signed (s : bool) (z : spec_float) : Prop :=
  match z with
  | S754_zero s' | S754_infinity s' | S754_finite s' _ _ => s' = s
  | S754_nan => False
  end.

(** A zero or a finite number. *)
Definition finite_number (z : spec_float) : Prop :=
  match z with
  | S754_zero _ | S754_finite _ _ _ => True
  | _ => False
  end.

Module HandRaiserReadings.
Import HandRaiser.

(** What one [draw] reads off the stored detections: whether the tracked
    point is above the threshold point, when both are present and
    confident. *)
Definition reading (ps : list Detection) : option bool :=
  match getKeypoint (obj ps) thresholdIndex 0,
        getKeypoint (obj ps) trackingIndex 0 with
  | returns (obj th), returns (obj tr) =>
      if (confidenceThreshold <? confidence th)%float
         && (confidenceThreshold <? confidence tr)%float
      then Some (y tr <? y th)%float
      else None
  | _, _ => None
  end.

(** The readings of the [draw] calls of an event sequence, each taken from
    the detections delivered last ([current] before the first delivery). *)
Fixpoint readings (current : list Detection) (es : list Event) : list bool :=
  match es with
  | [] => []
  | Detected results :: es' => readings (or_else results []) es'
  | Frame :: es' =>
      match reading current with
      | Some above => above :: readings current es'
      | None => readings current es'
      end
  | Key _ :: es' => readings current es'
  end.

(** The number of [draw] calls in an event sequence. *)
Fixpoint frames_drawn (es : list Event) : Z :=
  match es with
  | [] => 0
  | Frame :: es' => 1 + frames_drawn es'
  | _ :: es' => frames_drawn es'
  end.

End HandRaiserReadings.

Module HandPoseTerms.

(** The hand has a keypoints array. *)
Definition complete (hand : Detection) : Prop := exists ks, keypoints hand = obj ks.

(** The keypoints of a hand, none when the array is missing. *)
Definition keypoints_of (hand : Detection) : list Keypoint := or_else (keypoints hand) [].

End HandPoseTerms.

Module BodyPoseCanvasTerms.
Import Canvas BodyPose.

(** Each element with its index, counted from [i]. *)
Fixpoint indexed {A} (xs : list A) (i : Z) : list (Z * A) :=
  match xs with
  | [] => []
  | a :: rest => (i, a) :: indexed rest (i + 1)
  end.

(** The keypoints of a person that [showAllPoints] shows, with their
    indices: those among the first 17 with a confidence above the
    threshold. *)
Definition shown_points (p : Detection) : list (Z * Keypoint) :=
  filter (fun ik => (confidenceThreshold <? confidence (snd ik))%float)
         (firstn 17 (indexed (or_else (keypoints p) []) 0)).

(** What [showAllPoints] paints for one shown keypoint. *)
Definition tagged_point (ik : Z * Keypoint) : list Call :=
  BodyPoseCanvas.showPoint (obj (snd ik)) (obj (fst ik)) (Rgb 0 255 0).



(** How many [push] calls are open after a list of calls, [depth] before. *)
Definition push_depth (calls : list Call) (depth : Z) : Z :=
  fold_left (fun d c => match c with push => d + 1 | pop => d - 1 | _ => d end)
            calls depth.

End BodyPoseCanvasTerms.

(** * Properties *)

(** ** Array reads *)

Lemma index_obj_iff {A} (xs : list A) (i : Z) (a : A) :
  index xs i = obj a <-> 0 <= i /\ nth_error xs (Z.to_nat i) = Some a.
Proof.
  unfold index. destruct (Z.ltb_spec i 0) as [Hneg | Hpos].
  - split; [discriminate | lia].
  - destruct (nth_error xs (Z.to_nat i)) as [a' |]; split.
    + intros [= ->]. auto.
    + intros [_ [= ->]]. reflexivity.
    + discriminate.
    + intros [_ [=]].
Qed.

Lemma index_never_null {A} (xs : list A) (i : Z) : index xs i <> null.
Proof.
  unfold index. destruct (i <? 0); [discriminate |].
  destruct (nth_error xs (Z.to_nat i)); discriminate.
Qed.

Lemma index_outside {A} (xs : list A) (i : Z) :
  i < 0 \/ Js.length xs <= i -> index xs i = undefined.
Proof.
  unfold index, Js.length. intros Hout.
  destruct (Z.ltb_spec i 0) as [Hneg | Hpos]; [reflexivity |].
  destruct Hout as [Hlt | Hge]; [lia |].
  assert (Hnone : nth_error xs (Z.to_nat i) = None)
    by (apply nth_error_None; lia).
  now rewrite Hnone.
Qed.

(** ** [getKeypoint] *)

(** The guards of [getKeypoint] collapse to one nested lookup. *)
Lemma getKeypoint_lookup (poses : ref (list Detection)) (pointIndex personIndex : Z) :
  getKeypoint poses pointIndex personIndex =
  returns
    match poses with
    | obj ps =>
        match index ps personIndex with
        | obj person =>
            match keypoints person with
            | obj ks => or_null (index ks pointIndex)
            | _ => null
            end
        | _ => null
        end
    | _ => null
    end.
Proof.
  unfold getKeypoint.
  destruct poses as [| | ps]; cbn; try reflexivity.
  destruct (Z.eqb_spec (Js.length ps) 0) as [Hlen | Hlen].
  - destruct ps; [| discriminate Hlen].
    unfold index. destruct (personIndex <? 0); [reflexivity |].
    now destruct (Z.to_nat personIndex).
  - destruct (index ps personIndex) as [| | person]; cbn; try reflexivity.
    destruct (keypoints person) as [| | ks]; cbn; reflexivity.
Qed.

(** C3. [getKeypoint] returns the keypoint stored at [pointIndex] of the
    [personIndex]-th detection exactly when the detections list is a
    non-empty array, that detection exists and its keypoints array holds
    the index; in every other case it returns [null].  It never throws and
    never returns [undefined]; in particular it returns [null] on an empty
    list for any index and for a [personIndex] outside the list. *)
Theorem getKeypoint_contract (poses : ref (list Detection)) (pointIndex personIndex : Z) :
  (forall k : Keypoint,
      getKeypoint poses pointIndex personIndex = returns (obj k) <->
      exists ps person ks,
        poses = obj ps /\ ps <> [] /\
        (0 <= personIndex /\ nth_error ps (Z.to_nat personIndex) = Some person) /\
        keypoints person = obj ks /\
        (0 <= pointIndex /\ nth_error ks (Z.to_nat pointIndex) = Some k))
  /\ ((exists k, getKeypoint poses pointIndex personIndex = returns (obj k))
      \/ getKeypoint poses pointIndex personIndex = returns null)
  /\ getKeypoint (obj []) pointIndex personIndex = returns null
  /\ (forall ps, personIndex < 0 \/ Js.length ps <= personIndex ->
        getKeypoint (obj ps) pointIndex personIndex = returns null).
Proof.
  split; [intros k; split | split; [| split]].
  - (* a keypoint comes back only from a complete lookup *)
    rewrite getKeypoint_lookup. intros Hret.
    destruct poses as [| | ps]; try discriminate Hret.
    destruct (index ps personIndex) as [| | person] eqn:Hperson;
      try discriminate Hret.
    destruct (keypoints person) as [| | ks] eqn:Hks; try discriminate Hret.
    destruct (index ks pointIndex) as [| | k'] eqn:Hk; try discriminate Hret.
    injection Hret as ->.
    apply index_obj_iff in Hk.
    exists ps, person, ks. repeat split; try tauto.
    + intros ->. unfold index in Hperson.
      destruct (personIndex <? 0); [discriminate |].
      now destruct (Z.to_nat personIndex).
    + apply index_obj_iff in Hperson. tauto.
    + apply index_obj_iff in Hperson. tauto.
  - (* a complete lookup gives the keypoint *)
    intros (ps & person & ks & -> & _ & Hperson & Hks & Hk).
    rewrite getKeypoint_lookup.
    apply index_obj_iff in Hperson. apply index_obj_iff in Hk.
    now rewrite Hperson, Hks, Hk.
  - (* total: a keypoint or null *)
    rewrite getKeypoint_lookup.
    destruct poses as [| | ps]; auto.
    destruct (index ps personIndex) as [| | person]; auto.
    destruct (keypoints person) as [| | ks]; auto.
    destruct (index ks pointIndex) as [| | k]; cbn; eauto.
  - rewrite getKeypoint_lookup. unfold index.
    destruct (personIndex <? 0); [reflexivity |].
    now destruct (Z.to_nat personIndex).
  - intros ps Hout. rewrite getKeypoint_lookup.
    now rewrite (index_outside ps personIndex Hout).
Qed.

Lemma getKeypoint_contract_witness :
  getKeypoint (obj [Samples.person 100 300]) 10 1 = returns null /\
  exists ps person ks,
    obj [Samples.person 100 300] = obj ps /\ ps <> [] /\
    (0 <= 0 /\ nth_error ps (Z.to_nat 0) = Some person) /\
    keypoints person = obj ks /\
    (0 <= 10 /\ nth_error ks (Z.to_nat 10) = Some (Samples.seen_at 400 300)).
Proof.
  split.
  - apply (proj2 (proj2 (proj2
      (getKeypoint_contract (obj [Samples.person 100 300]) 10 1)))).
    right. cbn. discriminate.
  - apply (proj1 (getKeypoint_contract (obj [Samples.person 100 300]) 10 0)).
    reflexivity.
Defined.

(** ** Binary64 facts the sketches rely on *)

Lemma SFcompare_swap (a b : spec_float) :
  SFcompare b a = option_map CompOpp (SFcompare a b).
Proof.
  destruct a as [sa | sa | | sa ma ea], b as [sb | sb | | sb mb eb];
    try reflexivity;
    try (destruct sa; reflexivity);
    try (destruct sb; reflexivity);
    try (destruct sa, sb; reflexivity).
  cbn. change (Pos.compare_cont Eq mb ma)
    with (Pos.compare_cont (CompOpp Eq) mb ma).
  rewrite <- (Pos.compare_cont_antisym ma mb Eq).
  rewrite (Z.compare_antisym ea eb).
  destruct sa, sb; try reflexivity;
    destruct (ea ?= eb); cbn; try reflexivity;
    destruct (Pos.compare_cont Eq ma mb); reflexivity.
Qed.

(** [a <= b] excludes [b < a] (also when one of them is NaN). *)
Lemma leb_not_gt (a b : float) :
  (a <=? b)%float = true -> (b <? a)%float = false.
Proof.
  rewrite leb_spec, ltb_spec. unfold SFleb, SFltb.
  rewrite (SFcompare_swap (Prim2SF a) (Prim2SF b)).
  destruct (SFcompare (Prim2SF a) (Prim2SF b)) as [[| |] |];
    cbn; congruence.
Qed.

Lemma finite_spec (f : float) : is_finite f = true ->
  (exists s, Prim2SF f = S754_zero s) \/
  (exists s m e, Prim2SF f = S754_finite s m e).
Proof.
  unfold is_finite, is_nan, is_infinity.
  rewrite !eqb_spec, abs_spec.
  destruct (Prim2SF f) as [s | s | | s m e]; intros Hfin.
  - left. now exists s.
  - destruct s; vm_compute in Hfin; discriminate Hfin.
  - vm_compute in Hfin; discriminate Hfin.
  - right. now exists s, m, e.
Qed.

Lemma spec_sub_diag (a : Z) : IntDef.Z.sub a a = 0.
Proof. exact (Z.sub_diag a). Qed.

(** A finite number minus itself is [+0]. *)
Lemma sub_diag (f : float) : is_finite f = true -> (f - f)%float = 0%float.
Proof.
  intros Hfin. apply Prim2SF_inj. rewrite sub_spec.
  destruct (finite_spec f Hfin) as [(s & ->) | (s & m & e & ->)].
  - now destruct s.
  - unfold SF64sub, SFsub. cbv zeta. rewrite Z.min_id.
    unfold shl_align. rewrite !spec_sub_diag. reflexivity.
Qed.

Lemma binary_round_aux_opp s m e l :
  binary_round_aux prec emax (negb s) m e l = SFopp (binary_round_aux prec emax s m e l).
Proof.
  unfold binary_round_aux.
  destruct (shr_fexp prec emax m e l) as [mrs' e'].
  destruct (shr_fexp prec emax _ e' loc_Exact) as [mrs'' e''].
  destruct (shr_m mrs'') as [| p | p]; try reflexivity.
  now destruct (IntDef.Z.leb e'' (IntDef.Z.sub emax prec)).
Qed.

Lemma binary_round_opp s m e :
  binary_round prec emax (negb s) m e = SFopp (binary_round prec emax s m e).
Proof.
  unfold binary_round. destruct (shl_align m e _) as [mz ez].
  apply binary_round_aux_opp.
Qed.

Lemma binary_normalize_opp m e :
  mirrored (binary_normalize prec emax m e false) (binary_normalize prec emax (- m) e false).
Proof.
  destruct m as [| p | p]; cbn [Z.opp binary_normalize].
  - right. now exists false, false.
  - left. apply (binary_round_opp false).
  - left. change false with (negb true) at 1. rewrite (binary_round_opp true).
    now destruct (binary_round prec emax true p e).
Qed.

Lemma SFsub_swap (a b : spec_float) :
  mirrored (SF64sub a b) (SF64sub b a).
Proof.
  destruct a as [sa | sa | | sa ma ea], b as [sb | sb | | sb mb eb];
    try (left; reflexivity);
    try (left; destruct sa; reflexivity);
    try (left; destruct sb; reflexivity);
    try (left; destruct sa, sb; reflexivity).
  - right. destruct sa, sb; cbn; eauto.
  - unfold SF64sub, SFsub. cbv zeta.
    change (IntDef.Z.min eb ea) with (Z.min eb ea).
    change (IntDef.Z.min ea eb) with (Z.min ea eb).
    rewrite (Z.min_comm eb ea).
    set (ca := cond_Zopp sa _). set (cb := cond_Zopp sb _).
    change (IntDef.Z.sub cb ca) with (cb - ca).
    replace (cb - ca) with (- (IntDef.Z.sub ca cb)) by (change (IntDef.Z.sub ca cb) with (ca - cb); lia).
    apply binary_normalize_opp.
Qed.

Lemma SFmul_mirrored (a b : spec_float) :
  mirrored a b -> SF64mul a a = SF64mul b b.
Proof.
  intros [-> | (sa & sb & -> & ->)].
  - destruct a as [s | s | | s m e]; cbn; try (destruct s; reflexivity).
    reflexivity.
  - now destruct sa, sb.
Qed.

(** The square of a difference does not depend on the order of its terms. *)
Lemma square_sub_swap (u v : float) :
  ((u - v) * (u - v))%float = ((v - u) * (v - u))%float.
Proof.
  apply Prim2SF_inj. rewrite !mul_spec, !sub_spec.
  apply SFmul_mirrored, SFsub_swap.
Qed.

(** ** The threshold counter of the hand-raiser sketch *)

Module HandRaiserFacts.
Import HandRaiser HandRaiserTerms.

Lemma shows_nonempty ps th tr : shows ps th tr -> (0 <? Js.length ps) = true.
Proof.
  intros (Hth & _). rewrite getKeypoint_lookup in Hth.
  destruct ps; [discriminate Hth | reflexivity].
Qed.

(** With usable data [draw] is one call of [checkThresholdCross]. *)
Lemma draw_usable s ps th tr :
  poses s = obj ps -> shows ps th tr ->
  draw s = returns (checkThresholdCross (obj th) (obj tr) s).
Proof.
  intros Hposes Hshows. pose proof (shows_nonempty _ _ _ Hshows) as Hlen.
  destruct Hshows as (Hth & Htr & Hcth & Hctr).
  unfold draw, confident. rewrite Hposes. cbn [member bind].
  rewrite Hlen, Hth. cbn [bind]. rewrite Htr. cbn [bind].
  now rewrite Hcth, Hctr.
Qed.

(** Without usable data [draw] changes nothing. *)
Lemma draw_unusable s ps thp trp :
  poses s = obj ps ->
  getKeypoint (obj ps) thresholdIndex 0 = returns thp ->
  getKeypoint (obj ps) trackingIndex 0 = returns trp ->
  unusable thp \/ unusable trp ->
  draw s = returns s.
Proof.
  intros Hposes Hth Htr Hbad.
  unfold draw, confident. rewrite Hposes. cbn [member bind].
  destruct (0 <? Js.length ps); [| reflexivity].
  rewrite Hth. cbn [bind]. rewrite Htr. cbn [bind].
  destruct Hbad as [[-> | (k & -> & Hk)] | [-> | (k & -> & Hk)]].
  - reflexivity.
  - rewrite (leb_not_gt _ _ Hk). cbn. now destruct trp.
  - now destruct thp.
  - rewrite (leb_not_gt _ _ Hk). destruct thp; try reflexivity.
    now rewrite andb_false_r.
Qed.

Lemma checkThresholdCross_count th tr s :
  crossCount (checkThresholdCross (obj th) (obj tr) s) =
  if (y tr <? y th)%float && negb (lastAboveThreshold s)
  then crossCount s + 1 else crossCount s.
Proof. reflexivity. Qed.

Lemma checkThresholdCross_flag th tr s :
  lastAboveThreshold (checkThresholdCross (obj th) (obj tr) s) = (y tr <? y th)%float.
Proof. reflexivity. Qed.

Lemma last_cons {A} (l : list A) (a d : A) : last (a :: l) d = last l a.
Proof.
  revert a d. induction l as [| b l IH]; intros a d; [reflexivity |].
  change (last (a :: b :: l) d) with (last (b :: l) d).
  now rewrite !IH.
Qed.

Lemma run_app es1 es2 s :
  run (es1 ++ es2) s = (s' <- run es1 s ;; run es2 s').
Proof.
  revert s. induction es1 as [| e es1 IH]; intros s; cbn; [reflexivity |].
  destruct (step e s) as [s' | err]; cbn; [apply IH | reflexivity].
Qed.

(** One usable frame: the detections are stored, then the counter moves. *)
Lemma run_frame_usable f s :
  usable f ->
  run (frame (obj (seen f))) s =
  returns (checkThresholdCross (obj (thresholdPoint f)) (obj (trackingPoint f))
             (gotPoses (obj (seen f)) s)).
Proof.
  intros Hf. cbn [frame run step bind].
  rewrite (draw_usable _ (seen f) (thresholdPoint f) (trackingPoint f));
    [reflexivity | reflexivity | exact Hf].
Qed.

Lemma run_usable_frames fs : Forall usable fs ->
  forall s, exists s',
    run (events fs) s = returns s' /\
    crossCount s' = crossCount s + rising_edges (lastAboveThreshold s) (map isAbove fs) /\
    lastAboveThreshold s' = last (map isAbove fs) (lastAboveThreshold s).
Proof.
  induction 1 as [| f fs Hf Hfs IH]; intros s.
  - exists s. cbn. repeat split. lia.
  - change (events (f :: fs)) with (frame (obj (seen f)) ++ events fs).
    rewrite run_app, (run_frame_usable f s Hf). cbn [bind].
    destruct (IH (checkThresholdCross (obj (thresholdPoint f)) (obj (trackingPoint f))
                    (gotPoses (obj (seen f)) s))) as (s' & Hrun & Hcount & Hflag).
    exists s'. split; [exact Hrun |].
    rewrite checkThresholdCross_count, checkThresholdCross_flag in Hcount.
    rewrite checkThresholdCross_flag in Hflag.
    cbn [gotPoses crossCount lastAboveThreshold] in Hcount.
    fold (isAbove f) in Hcount, Hflag.
    cbn [map rising_edges]. split.
    + rewrite Hcount.
      generalize (rising_edges (isAbove f) (map isAbove fs)). intros n.
      destruct (isAbove f), (lastAboveThreshold s); cbn [andb negb]; lia.
    + rewrite Hflag. symmetry. apply last_cons.
Qed.

(** C1. With both points present, [checkThresholdCross] computes
    [isAbove = trackingPoint.y < thresholdPoint.y], adds exactly 1 to
    [crossCount] when [isAbove] holds and the flag was false, leaves it
    alone otherwise, and stores [isAbove] in the flag.  Hence, from the
    initial state, any run of frames with present and confident points
    ends with [crossCount] equal to the number of rising edges of the
    [isAbove] sequence; for [false,false,true,true,false,true] that is 2. *)
Theorem threshold_counter_semantics :
  (crossCount init = 0 /\ lastAboveThreshold init = false)
  /\ (forall th tr s,
      let isAboveThreshold := (y tr <? y th)%float in
      let s' := checkThresholdCross (obj th) (obj tr) s in
      crossCount s' =
        (if isAboveThreshold && negb (lastAboveThreshold s)
         then crossCount s + 1 else crossCount s) /\
      lastAboveThreshold s' = isAboveThreshold /\
      poses s' = poses s /\ showVideo s' = showVideo s)
  /\ (forall f s, usable f ->
        draw (gotPoses (obj (seen f)) s) =
        returns (checkThresholdCross (obj (thresholdPoint f)) (obj (trackingPoint f))
                   (gotPoses (obj (seen f)) s)))
  /\ (forall fs, Forall usable fs ->
        exists s',
          run (events fs) init = returns s' /\
          crossCount s' = rising_edges false (map isAbove fs) /\
          lastAboveThreshold s' = last (map isAbove fs) false)
  /\ (forall fs, Forall usable fs ->
        map isAbove fs = [false; false; true; true; false; true] ->
        exists s', run (events fs) init = returns s' /\ crossCount s' = 2).
Proof.
  split; [split; reflexivity |]. split; [| split; [| split]].
  - intros th tr s. cbn. auto.
  - intros f s Hf. now apply (draw_usable _ (seen f)).
  - intros fs Hfs. destruct (run_usable_frames fs Hfs init) as (s' & Hrun & Hcount & Hflag).
    exists s'. auto.
  - intros fs Hfs Hseq.
    destruct (run_usable_frames fs Hfs init) as (s' & Hrun & Hcount & _).
    exists s'. split; [exact Hrun |]. rewrite Hcount, Hseq. reflexivity.
Qed.

Lemma threshold_counter_semantics_witness :
  exists s',
    run (events [Samples.hand_down; Samples.hand_down; Samples.hand_up;
                 Samples.hand_up; Samples.hand_down; Samples.hand_up]) init
    = returns s' /\
    crossCount s' = 2.
Proof.
  apply (proj2 (proj2 (proj2 (proj2 threshold_counter_semantics)))).
  - repeat constructor.
  - reflexivity.
Defined.

(** C2. A frame in which the threshold point or the tracking point is
    absent, or has a confidence not above [confidenceThreshold], leaves
    [crossCount] and [lastAboveThreshold] as they were: [draw] returns the
    state unchanged.  So in the sequence valid-above, missing, valid-above
    the counter is the same after the third frame as after the first, the
    flag having stayed true. *)
Theorem missing_data_is_noop :
  (forall s ps thp trp,
      poses s = obj ps ->
      getKeypoint (obj ps) thresholdIndex 0 = returns thp ->
      getKeypoint (obj ps) trackingIndex 0 = returns trp ->
      unusable thp \/ unusable trp ->
      draw s = returns s)
  /\ (forall results s, blind results ->
        exists s', run (frame results) s = returns s' /\
                   crossCount s' = crossCount s /\
                   lastAboveThreshold s' = lastAboveThreshold s)
  /\ (forall f1 f3 results s,
        usable f1 -> isAbove f1 = true ->
        blind results ->
        usable f3 -> isAbove f3 = true ->
        exists s1 s2 s3,
          run (frame (obj (seen f1))) s = returns s1 /\
          run (frame results) s1 = returns s2 /\
          run (frame (obj (seen f3))) s2 = returns s3 /\
          lastAboveThreshold s1 = true /\
          (crossCount s2 = crossCount s1 /\ lastAboveThreshold s2 = true) /\
          (crossCount s3 = crossCount s1 /\ lastAboveThreshold s3 = true)).
Proof.
  assert (Hblind : forall results s, blind results ->
            run (frame results) s = returns (gotPoses results s)).
  { intros results s (thp & trp & Hth & Htr & Hbad).
    cbn [frame run step bind].
    now rewrite (draw_unusable _ (or_else results []) thp trp). }
  split; [| split].
  - exact draw_unusable.
  - intros results s Hb. exists (gotPoses results s). now rewrite Hblind.
  - intros f1 f3 results s Hf1 Ha1 Hb Hf3 Ha3.
    eexists _, _, _.
    rewrite (run_frame_usable f1 s Hf1), Hblind by assumption.
    rewrite (run_frame_usable f3 _ Hf3).
    repeat split; rewrite ?checkThresholdCross_count, ?checkThresholdCross_flag;
      fold (isAbove f1); fold (isAbove f3); rewrite ?Ha1, ?Ha3;
      cbn [gotPoses crossCount lastAboveThreshold];
      rewrite ?checkThresholdCross_count, ?checkThresholdCross_flag;
      fold (isAbove f1); rewrite ?Ha1; reflexivity.
Qed.

Lemma missing_data_is_noop_witness :
  draw (gotPoses (obj [Samples.unsure_person]) init)
  = returns (gotPoses (obj [Samples.unsure_person]) init) /\
  exists s1 s2 s3,
    run (frame (obj (seen Samples.hand_up))) init = returns s1 /\
    run (frame (obj [Samples.hidden_person])) s1 = returns s2 /\
    run (frame (obj (seen Samples.hand_up))) s2 = returns s3 /\
    lastAboveThreshold s1 = true /\
    (crossCount s2 = crossCount s1 /\ lastAboveThreshold s2 = true) /\
    (crossCount s3 = crossCount s1 /\ lastAboveThreshold s3 = true).
Proof.
  split.
  { apply (proj1 missing_data_is_noop _ [Samples.unsure_person]
             (obj (Samples.seen_at 320 100)) (obj (Samples.guessed_at 300 200)));
      try reflexivity.
    right. right. exists (Samples.guessed_at 300 200). split; reflexivity. }
  apply (proj2 (proj2 missing_data_is_noop) Samples.hand_up Samples.hand_up).
  - repeat split.
  - reflexivity.
  - exists null, null. repeat split. left. now left.
  - repeat split.
  - reflexivity.
Defined.

(** Every event keeps [poses] an array, returns, and moves the counter by
    0 or 1. *)
Lemma step_sound e s : sound s ->
  exists s', step e s = returns s' /\ sound s' /\
             (crossCount s' = crossCount s \/ crossCount s' = crossCount s + 1).
Proof.
  intros (ps & Hps). destruct e as [results | | key]; cbn [step].
  - eexists. split; [reflexivity |]. split; [now eexists | now left].
  - unfold draw. rewrite Hps. cbn [member bind].
    destruct (0 <? Js.length ps);
      [| exists s; split; [reflexivity | split; [now exists ps | now left]]].
    rewrite !getKeypoint_lookup. cbn [bind].
    repeat match goal with
           | |- context [match ?r with undefined => _ | null => _ | obj _ => _ end] =>
               destruct r
           | |- context [if ?b then _ else _] => destruct b
           end;
      try (exists s; split; [reflexivity | split; [now exists ps | now left]]).
    all: eexists; split; [reflexivity |]; split; [now exists ps |];
      rewrite checkThresholdCross_count;
      match goal with |- context [if ?b then _ else _] => destruct b end; auto.
  - unfold keyPressed. destruct (String.eqb key " ");
      eexists; (split; [reflexivity |]); (split; [now exists ps | now left]).
Qed.

Lemma run_sound es : forall s, sound s ->
  exists s', run es s = returns s' /\ sound s' /\ crossCount s <= crossCount s'.
Proof.
  induction es as [| e es IH]; intros s Hs.
  - exists s. cbn. repeat split; [exact Hs | lia].
  - destruct (step_sound e s Hs) as (s1 & Hstep & Hs1 & Hmove).
    destruct (IH s1 Hs1) as (s' & Hrun & Hs' & Hle).
    exists s'. cbn [run]. rewrite Hstep. cbn [bind].
    repeat split; [exact Hrun | exact Hs' | lia].
Qed.

Lemma init_sound : sound init.
Proof. now exists []. Qed.

(** C9. From the initial state every sequence of events runs to a state,
    and there every further event either leaves [crossCount] unchanged or
    adds 1 to it; [crossCount] is never negative and never smaller than it
    was at an earlier point of the run. *)
Theorem crossCount_monotone :
  crossCount init = 0
  /\ (forall es e, exists s s',
        run es init = returns s /\ step e s = returns s' /\
        0 <= crossCount s /\
        (crossCount s' = crossCount s \/ crossCount s' = crossCount s + 1))
  /\ (forall es1 es2, exists s1 s2,
        run es1 init = returns s1 /\ run (es1 ++ es2) init = returns s2 /\
        0 <= crossCount s1 <= crossCount s2).
Proof.
  split; [reflexivity | split].
  - intros es e.
    destruct (run_sound es init init_sound) as (s & Hrun & Hs & Hle).
    destruct (step_sound e s Hs) as (s' & Hstep & _ & Hmove).
    exists s, s'. cbn in Hle. auto.
  - intros es1 es2.
    destruct (run_sound es1 init init_sound) as (s1 & Hrun1 & Hs1 & Hle1).
    destruct (run_sound es2 s1 Hs1) as (s2 & Hrun2 & _ & Hle2).
    exists s1, s2. rewrite run_app, Hrun1. cbn [bind]. cbn in Hle1.
    repeat split; [exact Hrun2 | lia | lia].
Qed.

End HandRaiserFacts.

(** ** The measuring sketch *)

Module BodyPoseFacts.
Import BodyPose BodyPoseTerms.

Lemma boxes_first (ps : list Detection) :
  index (filter not_nullish (map box ps)) 0 =
  match first_box ps with
  | Some b => obj (obj b)
  | None => undefined
  end.
Proof.
  induction ps as [| p ps IH]; [reflexivity |].
  cbn [map filter first_box]. destruct (box p) as [| | b]; cbn [not_nullish truthy].
  - exact IH.
  - exact IH.
  - reflexivity.
Qed.

Lemma centroid_gotPoses results s :
  centroid (gotPoses results s) =
  match first_box (or_else results []) with
  | Some b => mkPoint ((xMin b + xMax b) / 2) ((yMin b + yMax b) / 2)
  | None => mkPoint 0 0
  end.
Proof.
  unfold gotPoses. cbn [centroid]. rewrite boxes_first.
  now destruct (first_box (or_else results [])).
Qed.

(** C6. After [gotPoses], when a bounding box is present the stored
    centroid is the midpoint ((xMin + xMax) / 2, (yMin + yMax) / 2) of the
    first one; when the model delivered nothing, an empty list, or
    detections without a box, it is (0, 0). *)
Theorem centroid_of_box (s : State) :
  (forall ps b, first_box ps = Some b ->
      centroid (gotPoses (obj ps) s) =
      mkPoint ((xMin b + xMax b) / 2) ((yMin b + yMax b) / 2))
  /\ (forall p rest b, box p = obj b ->
        centroid (gotPoses (obj (p :: rest)) s) =
        mkPoint ((xMin b + xMax b) / 2) ((yMin b + yMax b) / 2))
  /\ centroid (gotPoses undefined s) = mkPoint 0 0
  /\ centroid (gotPoses null s) = mkPoint 0 0
  /\ centroid (gotPoses (obj []) s) = mkPoint 0 0
  /\ (forall ps, Forall (fun p => truthy (box p) = false) ps ->
        centroid (gotPoses (obj ps) s) = mkPoint 0 0).
Proof.
  repeat split.
  - intros ps b Hb. rewrite centroid_gotPoses. cbn [or_else]. now rewrite Hb.
  - intros p rest b Hb. rewrite centroid_gotPoses. cbn [or_else first_box].
    now rewrite Hb.
  - intros ps Hnone. rewrite centroid_gotPoses. cbn [or_else].
    induction Hnone as [| p ps Hp _ IH]; [reflexivity |].
    cbn [first_box]. destruct (box p); [exact IH | exact IH | discriminate Hp].
Qed.

Lemma centroid_of_box_witness :
  centroid (gotPoses (obj [Samples.hidden_person; Samples.person 100 300]) init)
  = mkPoint 350 250 /\
  centroid (gotPoses (obj [Samples.person 100 300; Samples.hidden_person]) init)
  = mkPoint 350 250 /\
  centroid (gotPoses (obj [Samples.hidden_person; Samples.unsure_person]) init)
  = mkPoint 0 0.
Proof.
  split; [| split].
  - exact (proj1 (centroid_of_box init)
             [Samples.hidden_person; Samples.person 100 300]
             (mkBox 250 40 450 460 200 420) eq_refl).
  - exact (proj1 (proj2 (centroid_of_box init))
             (Samples.person 100 300) [Samples.hidden_person]
             (mkBox 250 40 450 460 200 420) eq_refl).
  - apply (proj2 (proj2 (proj2 (proj2 (proj2 (centroid_of_box init)))))).
    repeat constructor.
Defined.

(** C7. For present points [measureDistance] returns the Euclidean
    distance sqrt((b.x - a.x)^2 + (b.y - a.y)^2), computed in binary64,
    which is the same in both directions; when either argument is [null]
    or [undefined] it returns [null]. *)
Theorem measureDistance_euclidean {A B} `{Located A} `{Located B} :
  (forall (a : A) (b : B),
      measureDistance (obj a) (obj b) =
      obj (sqrt ((x b - x a) * (x b - x a) + (y b - y a) * (y b - y a))))
  /\ (forall (a : A) (b : B),
        measureDistance (obj a) (obj b) = measureDistance (obj b) (obj a))
  /\ (forall p2 : ref B,
        measureDistance (@undefined A) p2 = null /\
        measureDistance (@null A) p2 = null)
  /\ (forall p1 : ref A,
        measureDistance p1 (@undefined B) = null /\
        measureDistance p1 (@null B) = null).
Proof.
  split; [reflexivity | split; [| split]].
  - intros a b. unfold measureDistance.
    now rewrite (square_sub_swap (x b) (x a)), (square_sub_swap (y b) (y a)).
  - intros p2. split; reflexivity.
  - intros p1. split; destruct p1; reflexivity.
Qed.

(** X1. The distance [measureDistance] returns from a pixel position to
    itself is 0. *)
Lemma measureDistance_self {A} `{Located A} (p : A) :
  on_canvas p -> measureDistance (obj p) (obj p) = obj 0%float.
Proof.
  intros [Hx Hy]. unfold measureDistance.
  now rewrite (sub_diag _ Hx), (sub_diag _ Hy).
Qed.

Section WithHost.
Context {host : Host}.

(** C5. For present points [measureAngle] is [atan2(dy, dx)] turned into
    degrees, plus 360 when that is negative.  Where [Math.atan2] maps the
    zero vector to 0, as ECMAScript prescribes, the angle from a pixel
    position to itself is 0. *)
Theorem measureAngle_definition {A B} `{Located A} `{Located B} :
  (forall (bp : A) (ep : B),
      let degrees := (atan2 (y ep - y bp) (x ep - x bp) * 180 / PI)%float in
      measureAngle (obj bp) (obj ep) =
      obj (if (degrees <? 0)%float then (degrees + 360)%float else degrees))
  /\ (atan2 0 0 = 0%float ->
      forall p : A, on_canvas p -> measureAngle (obj p) (obj p) = obj 0%float).
Proof.
  split; [reflexivity |].
  intros Hzero p [Hx Hy]. unfold measureAngle.
  rewrite (sub_diag _ Hx), (sub_diag _ Hy), Hzero. reflexivity.
Qed.

(** C4, at an input where it fails.  The reference point is (320, 240) and
    the body point lies 100 pixels to its right and a last binary place
    above it, so [dy] is -2^-45 and [dx] is 100.  The arctangent of that
    slope is about -2.8e-16; whichever of the three binary64 numbers
    around it [Math.atan2] returns, the angle in degrees is a negative
    number of magnitude about 1.6e-14, and adding 360 rounds to 360
    itself: [measureAngle] returns 360, outside [0, 360). *)
Theorem measureAngle_reaches_360 :
  In (atan2 (-0x1p-45) 100)
     [-0x1.47ae147ae147ap-52; -0x1.47ae147ae147bp-52; -0x1.47ae147ae147cp-52]%float ->
  exists angle,
    measureAngle (obj (mkPoint 320 240)) (obj (mkPoint 420 0x1.dffffffffffffp+7))
    = obj angle /\
    angle = 360%float /\ (angle <? 360)%float = false.
Proof.
  intros Hin. exists 360%float. split; [| split; reflexivity].
  unfold measureAngle. cbn [x y Located_Point point_x point_y].
  change (420 - 320)%float with 100%float.
  change (0x1.dffffffffffffp+7 - 240)%float with (-0x1p-45)%float.
  destruct Hin as [Ht | [Ht | [Ht | []]]]; rewrite <- Ht; reflexivity.
Qed.

Lemma rem_prev (i : Z) : 0 <= i <= 16 ->
  Z.rem (i - 1 + 17) 17 = if i =? 0 then 16 else i - 1.
Proof.
  intros Hi. destruct (Z.eqb_spec i 0) as [-> | Hnz]; [reflexivity |].
  replace (i - 1 + 17) with (i - 1 + 1 * 17) by lia.
  rewrite Z.rem_add by lia. apply Z.rem_small. lia.
Qed.

Lemma rem_next (i : Z) : 0 <= i <= 16 ->
  Z.rem (i + 1) 17 = if i =? 16 then 0 else i + 1.
Proof.
  intros Hi. destruct (Z.eqb_spec i 16) as [-> | Hnz]; [reflexivity |].
  apply Z.rem_small. lia.
Qed.

Lemma keyPressed_index_range key keyCode s :
  0 <= bodyPointIndex s <= 16 ->
  0 <= bodyPointIndex (keyPressed key keyCode s) <= 16.
Proof.
  intros Hi. unfold keyPressed.
  destruct (String.eqb key " "), (keyCode =? LEFT_ARROW), (keyCode =? RIGHT_ARROW);
    cbn [bodyPointIndex set_bodyPointIndex set_showVideo];
    rewrite ?rem_next, ?rem_prev; rewrite ?rem_prev; try assumption;
    repeat match goal with |- context [?a =? ?b] => destruct (Z.eqb_spec a b) end;
    lia.
Qed.

Lemma step_index_range e s :
  0 <= bodyPointIndex s <= 16 -> 0 <= bodyPointIndex (step e s) <= 16.
Proof.
  destruct e as [results | mouseX mouseY | key keyCode]; cbn [step].
  - trivial.
  - trivial.
  - apply keyPressed_index_range.
Qed.

Lemma run_index_range es : forall s,
  0 <= bodyPointIndex s <= 16 -> 0 <= bodyPointIndex (run es s) <= 16.
Proof.
  unfold run. induction es as [| e es IH]; intros s Hs; [exact Hs |].
  cbn [fold_left]. apply IH, step_index_range, Hs.
Qed.

Lemma draw_requests s m : draw s = returns (Some m) -> requested m = bodyPointIndex s.
Proof.
  unfold draw. destruct (poses s) as [| | ps]; cbn [member bind]; try discriminate.
  destruct (0 <? Js.length ps); [| discriminate].
  rewrite getKeypoint_lookup. cbn [bind].
  match goal with |- context [match ?r with undefined => _ | null => _ | obj _ => _ end] =>
    destruct r as [| | bp] end; try discriminate.
  destruct (confidenceThreshold <? confidence bp)%float; [| discriminate].
  now intros [= <-].
Qed.

(** C10. [bodyPointIndex] starts at 2 and stays within 0..16 whatever is
    delivered, clicked or pressed; the left arrow takes an index [i] in
    that range to (i - 1 + 17) % 17 and the right arrow to (i + 1) % 17,
    wrapping from 0 to 16 and from 16 to 0; so every [getKeypoint] call of
    [draw] asks for an index of the MoveNet schema. *)
Theorem bodyPointIndex_in_range :
  bodyPointIndex init = 2
  /\ (forall es, 0 <= bodyPointIndex (run es init) <= 16)
  /\ (LEFT_ARROW <> RIGHT_ARROW ->
      forall key s, 0 <= bodyPointIndex s <= 16 ->
        let i := bodyPointIndex s in
        (bodyPointIndex (keyPressed key LEFT_ARROW s) = Z.rem (i - 1 + 17) 17 /\
         Z.rem (i - 1 + 17) 17 = (if i =? 0 then 16 else i - 1)) /\
        (bodyPointIndex (keyPressed key RIGHT_ARROW s) = Z.rem (i + 1) 17 /\
         Z.rem (i + 1) 17 = (if i =? 16 then 0 else i + 1)))
  /\ (forall es m, draw (run es init) = returns (Some m) -> 0 <= requested m <= 16).
Proof.
  split; [reflexivity |]. split; [| split].
  - intros es. apply run_index_range. cbn. lia.
  - intros Hdistinct key s Hi. cbv zeta.
    rewrite (rem_prev _ Hi), (rem_next _ Hi). unfold keyPressed.
    rewrite !Z.eqb_refl.
    destruct (Z.eqb_spec LEFT_ARROW RIGHT_ARROW) as [Heq | _]; [contradiction |].
    destruct (Z.eqb_spec RIGHT_ARROW LEFT_ARROW) as [Heq | _];
      [symmetry in Heq; contradiction |].
    destruct (String.eqb key " ");
      cbn [bodyPointIndex set_bodyPointIndex set_showVideo];
      rewrite (rem_prev _ Hi), (rem_next _ Hi); auto.
  - intros es m Hdraw. rewrite (draw_requests _ _ Hdraw).
    apply run_index_range. cbn. lia.
Qed.

End WithHost.

Lemma measureAngle_definition_witness :
  @measureAngle browser _ _ _ _
    (obj (Samples.seen_at 320 240)) (obj (Samples.seen_at 320 240))
  = obj 0%float.
Proof.
  apply (proj2 (@measureAngle_definition browser Keypoint Keypoint _ _)).
  - reflexivity.
  - split; reflexivity.
Defined.

Lemma measureAngle_reaches_360_witness :
  exists angle,
    @measureAngle browser _ _ _ _
      (obj (mkPoint 320 240)) (obj (mkPoint 420 0x1.dffffffffffffp+7))
    = obj angle /\
    angle = 360%float /\ (angle <? 360)%float = false.
Proof.
  apply (@measureAngle_reaches_360 browser). right. left. reflexivity.
Defined.

Lemma bodyPointIndex_in_range_witness :
  (bodyPointIndex (@keyPressed browser "a" 37 (set_bodyPointIndex 0 init)) = 16 /\
   bodyPointIndex (@keyPressed browser "a" 39 (set_bodyPointIndex 16 init)) = 0) /\
  0 <= 2 <= 16.
Proof.
  split; [split |].
  - apply (proj1 (proj1 (proj1 (proj2 (proj2 (@bodyPointIndex_in_range browser)))
                           ltac:(discriminate) "a"%string (set_bodyPointIndex 0 init)
                           ltac:(cbn; lia)))).
  - apply (proj1 (proj2 (proj1 (proj2 (proj2 (@bodyPointIndex_in_range browser)))
                           ltac:(discriminate) "a"%string (set_bodyPointIndex 16 init)
                           ltac:(cbn; lia)))).
  - apply (proj2 (proj2 (proj2 (@bodyPointIndex_in_range browser)))
             [Detected (obj [Samples.person 100 300]); Mouse 200 200]
             (mkMeasurement 2 (obj 100%float) (obj 0%float))).
    reflexivity.
Defined.

End BodyPoseFacts.

(** ** The hand sketch *)

Module HandPoseFacts.



End HandPoseFacts.

(** * Further properties of the sketches *)

(** ** The hand-raiser sketch over arbitrary event sequences *)

Module HandRaiserRuns.
Import HandRaiser HandRaiserTerms HandRaiserReadings.

(** [draw] in terms of the reading it takes. *)
Lemma draw_reading s ps : poses s = obj ps ->
  draw s =
  returns match reading ps with
          | Some above =>
              {| poses := poses s;
                 showVideo := showVideo s;
                 crossCount := if above && negb (lastAboveThreshold s)
                               then crossCount s + 1 else crossCount s;
                 lastAboveThreshold := above |}
          | None => s
          end.
Proof.
  intros Hps. unfold draw, reading, confident. rewrite Hps. cbn [member bind].
  rewrite !getKeypoint_lookup. cbn [bind].
  destruct ps as [| p ps']; [reflexivity |].
  change (0 <? Js.length (p :: ps')) with true. cbv iota.
  repeat match goal with
         | |- context [match ?r with undefined => _ | null => _ | obj _ => _ end] =>
             destruct r
         end; try reflexivity.
  match goal with |- context [if ?b then _ else _] => destruct b end;
    unfold checkThresholdCross; rewrite ?Hps; reflexivity.
Qed.

(** X8. Drawing the same detections again changes nothing: a crossing is
    counted by the first [draw] that sees it and by no later one. *)
Theorem draw_idempotent s s1 :
  draw s = returns s1 -> draw s1 = returns s1.
Proof.
  intros Hdraw. destruct (poses s) as [| | ps] eqn:Hps;
    try (unfold draw in Hdraw; rewrite Hps in Hdraw; discriminate Hdraw).
  rewrite (draw_reading s ps Hps) in Hdraw. injection Hdraw as <-.
  destruct (reading ps) as [above |] eqn:Hr.
  - erewrite (draw_reading _ ps) by exact Hps. rewrite Hr. cbn.
    now rewrite andb_negb_r.
  - rewrite (draw_reading s ps Hps). now rewrite Hr.
Qed.

Lemma draw_idempotent_witness :
  draw (checkThresholdCross (obj (Samples.seen_at 320 100)) (obj (Samples.seen_at 400 50))
          (gotPoses (obj (seen Samples.hand_up)) init))
  = returns (checkThresholdCross (obj (Samples.seen_at 320 100)) (obj (Samples.seen_at 400 50))
               (gotPoses (obj (seen Samples.hand_up)) init)).
Proof.
  apply (draw_idempotent (gotPoses (obj (seen Samples.hand_up)) init)).
  reflexivity.
Defined.

(** The state an event sequence leads to, from any state holding an array
    of detections. *)
Lemma run_readings es : forall s ps, poses s = obj ps ->
  exists s',
    run es s = returns s' /\
    crossCount s' =
      crossCount s + rising_edges (lastAboveThreshold s) (readings ps es) /\
    lastAboveThreshold s' = last (readings ps es) (lastAboveThreshold s) /\
    2 * crossCount s' - (if lastAboveThreshold s' then 1 else 0)
      <= 2 * crossCount s - (if lastAboveThreshold s then 1 else 0)
         + frames_drawn es /\
    ((if lastAboveThreshold s then 1 else 0) <= crossCount s ->
     (if lastAboveThreshold s' then 1 else 0) <= crossCount s').
Proof.
  induction es as [| e es IH]; intros s ps Hps.
  - exists s. cbn. repeat split; try lia; auto.
  - destruct e as [results | | key]; cbn [run step bind readings frames_drawn].
    + destruct (IH (gotPoses results s) (or_else results []) eq_refl)
        as (s' & Hrun & Hcount & Hflag & Hbound & Hpos).
      exists s'. cbn [gotPoses crossCount lastAboveThreshold] in *. auto.
    + rewrite (draw_reading s ps Hps).
      destruct (reading ps) as [above |]; cbn [bind].
      * match goal with |- context [run es ?st] =>
          destruct (IH st ps Hps) as (s' & Hrun & Hcount & Hflag & Hbound & Hpos) end.
        cbn [crossCount lastAboveThreshold] in Hcount, Hflag, Hbound, Hpos.
        exists s'. split; [exact Hrun |].
        cbn [rising_edges]. rewrite HandRaiserFacts.last_cons.
        repeat split; try assumption.
        -- rewrite Hcount. generalize (rising_edges above (readings ps es)).
           intros n. destruct above, (lastAboveThreshold s); cbn [andb negb]; lia.
        -- revert Hbound. destruct above, (lastAboveThreshold s), (lastAboveThreshold s');
             cbn [andb negb]; lia.
        -- intros H0. apply Hpos. revert H0.
           destruct above, (lastAboveThreshold s); cbn [andb negb]; lia.
      * destruct (IH s ps Hps) as (s' & Hrun & Hcount & Hflag & Hbound & Hpos).
        exists s'. repeat split; try assumption. lia.
    + assert (Hps' : poses (keyPressed key s) = obj ps)
        by (unfold keyPressed; now destruct (String.eqb key " ")).
      destruct (IH (keyPressed key s) ps Hps')
        as (s' & Hrun & Hcount & Hflag & Hbound & Hpos).
      assert (Hc : crossCount (keyPressed key s) = crossCount s)
        by (unfold keyPressed; now destruct (String.eqb key " ")).
      assert (Hf : lastAboveThreshold (keyPressed key s) = lastAboveThreshold s)
        by (unfold keyPressed; now destruct (String.eqb key " ")).
      rewrite Hc, Hf in *. exists s'. auto.
Qed.

(** X9. Whatever the browser does, in whatever order, the sketch keeps
    running and [crossCount] is the number of rising edges in the readings
    its [draw] calls took, each from the detections delivered last; draws
    without usable data, deliveries and key presses contribute nothing. *)
Theorem crossCount_counts_rising_edges (es : list Event) :
  exists s',
    run es init = returns s' /\
    crossCount s' = rising_edges false (readings [] es) /\
    lastAboveThreshold s' = last (readings [] es) false.
Proof.
  destruct (run_readings es init [] eq_refl) as (s' & Hrun & Hcount & Hflag & _).
  exists s'. cbn in Hcount, Hflag. auto.
Qed.

(** X10. While the flag says "above" at least one crossing has been counted,
    and a crossing needs a [draw] of its own and one more to come down
    again: twice the count is at most the number of [draw] calls plus one. *)
Theorem crossCount_bounded_by_frames (es : list Event) :
  exists s',
    run es init = returns s' /\
    (if lastAboveThreshold s' then 1 else 0) <= crossCount s' /\
    2 * crossCount s' <= frames_drawn es + 1.
Proof.
  destruct (run_readings es init [] eq_refl) as (s' & Hrun & _ & _ & Hbound & Hpos).
  exists s'. unfold init in Hbound, Hpos.
  cbn [crossCount lastAboveThreshold] in Hbound, Hpos.
  split; [exact Hrun |]. split.
  - apply Hpos. lia.
  - destruct (lastAboveThreshold s'); lia.
Qed.

(** X11. In the hand-raiser and in the hand sketch a key press changes
    nothing but [showVideo], which it negates exactly for the space key;
    pressing the same key twice restores the state. *)
Theorem keyPressed_only_toggles_video :
  (forall key s,
      poses (keyPressed key s) = poses s /\
      crossCount (keyPressed key s) = crossCount s /\
      lastAboveThreshold (keyPressed key s) = lastAboveThreshold s /\
      showVideo (keyPressed key s) =
        (if String.eqb key " " then negb (showVideo s) else showVideo s) /\
      keyPressed key (keyPressed key s) = s)
  /\ (forall key s,
        HandPose.hands (HandPose.keyPressed key s) = HandPose.hands s /\
        HandPose.showVideo (HandPose.keyPressed key s) =
          (if String.eqb key " " then negb (HandPose.showVideo s)
           else HandPose.showVideo s) /\
        HandPose.keyPressed key (HandPose.keyPressed key s) = s).
Proof.
  split; intros key s.
  - unfold keyPressed. destruct (String.eqb key " "); cbn; repeat split.
    destruct s. cbn. now rewrite negb_involutive.
  - unfold HandPose.keyPressed. destruct (String.eqb key " "); cbn; repeat split.
    destruct s. cbn. now rewrite negb_involutive.
Qed.

End HandRaiserRuns.

(** ** More about binary64 rounding *)

Lemma shr_1_nonneg mrs : 0 <= shr_m mrs -> 0 <= shr_m (shr_1 mrs).
Proof.
  destruct mrs as [m r s]. cbn [shr_m].
  destruct m as [| [p | p |] | [p | p |]]; cbn; lia.
Qed.

Lemma iter_shr_1_nonneg p : forall mrs,
  0 <= shr_m mrs -> 0 <= shr_m (iter_pos shr_1 p mrs).
Proof.
  induction p as [p IH | p IH |]; intros mrs Hm; cbn [iter_pos].
  - apply IH, IH, shr_1_nonneg, Hm.
  - apply IH, IH, Hm.
  - apply shr_1_nonneg, Hm.
Qed.

Lemma shr_fexp_nonneg m e l :
  0 <= m -> 0 <= shr_m (fst (shr_fexp prec emax m e l)).
Proof.
  intros Hm. unfold shr_fexp, shr.
  assert (H0 : 0 <= shr_m (shr_record_of_loc m l))
    by (destruct l as [| []]; exact Hm).
  destruct (IntDef.Z.sub _ e) as [| p | p]; cbn [fst]; try exact H0.
  apply iter_shr_1_nonneg, H0.
Qed.

Lemma round_nearest_even_nonneg m l : 0 <= m -> 0 <= round_nearest_even m l.
Proof.
  intros Hm. unfold round_nearest_even.
  destruct l as [| []]; try exact Hm.
  - destruct (IntDef.Z.even m); [exact Hm |].
    change (IntDef.Z.add m 1) with (m + 1). lia.
  - change (IntDef.Z.add m 1) with (m + 1). lia.
Qed.

Lemma binary_round_aux_signed s m e l :
  0 <= m -> signed s (binary_round_aux prec emax s m e l).
Proof.
  intros Hm. unfold binary_round_aux.
  pose proof (shr_fexp_nonneg m e l Hm) as H1.
  destruct (shr_fexp prec emax m e l) as [mrs' e']. cbn [fst] in H1.
  pose proof (shr_fexp_nonneg _ e' loc_Exact
                (round_nearest_even_nonneg _ (loc_of_shr_record mrs') H1)) as H2.
  destruct (shr_fexp prec emax _ e' loc_Exact) as [mrs'' e'']. cbn [fst] in H2.
  destruct (shr_m mrs'') as [| p | p].
  - reflexivity.
  - match goal with |- context [if ?c then _ else _] => destruct c end;
      reflexivity.
  - lia.
Qed.

Lemma binary_round_signed s m e : signed s (binary_round prec emax s m e).
Proof.
  unfold binary_round. destruct (shl_align m e _) as [mz ez].
  apply binary_round_aux_signed. lia.
Qed.

Lemma binary_normalize_number m e :
  binary_normalize prec emax m e false <> S754_nan.
Proof.
  destruct m as [| p | p]; cbn [binary_normalize]; [discriminate | |].
  - pose proof (binary_round_signed false p e) as H.
    intros Heq. now rewrite Heq in H.
  - pose proof (binary_round_signed true p e) as H.
    intros Heq. now rewrite Heq in H.
Qed.

Lemma SFsub_number a b :
  finite_number a -> finite_number b -> SF64sub a b <> S754_nan.
Proof.
  destruct a as [sa | sa | | sa ma ea], b as [sb | sb | | sb mb eb];
    cbn [finite_number]; try contradiction; intros _ _.
  - destruct sa, sb; discriminate.
  - discriminate.
  - discriminate.
  - apply binary_normalize_number.
Qed.

Lemma SFmul_square a : a <> S754_nan -> signed false (SF64mul a a).
Proof.
  destruct a as [s | s | | s m e]; intros Ha; cbn.
  - now destruct s.
  - now destruct s.
  - contradiction.
  - replace (xorb s s) with false by now destruct s.
    apply binary_round_aux_signed. lia.
Qed.

Lemma SFadd_signed a b :
  signed false a -> signed false b -> signed false (SF64add a b).
Proof.
  destruct a as [sa | sa | | sa ma ea], b as [sb | sb | | sb mb eb];
    cbn [signed]; try contradiction; intros -> ->; try reflexivity.
  unfold SF64add, SFadd. cbv zeta. cbn [cond_Zopp].
  match goal with |- signed false (binary_normalize _ _ (IntDef.Z.add (Zpos ?p) (Zpos ?q)) _ _) =>
    change (IntDef.Z.add (Zpos p) (Zpos q)) with (Zpos (p + q)) end.
  apply binary_round_signed.
Qed.

Lemma SFsqrt_signed a : signed false a -> signed false (SF64sqrt a).
Proof.
  destruct a as [s | s | | s m e]; cbn [signed]; try contradiction; intros ->.
  - reflexivity.
  - reflexivity.
  - unfold SF64sqrt, SFsqrt.
    destruct (SFsqrt_core_binary prec emax (Zpos m) e) as [[q e'] l] eqn:Hcore.
    apply binary_round_aux_signed.
    unfold SFsqrt_core_binary in Hcore.
    set (m' := match _ with Z0 => _ | Zpos _ => _ | Zneg _ => _ end) in Hcore.
    assert (Hm' : 0 <= m').
    { subst m'. destruct (IntDef.Z.sub e _) as [| p | p]; try lia.
      change (0 <= Z.shiftl (Zpos m) (Zpos p)). apply Z.shiftl_nonneg. lia. }
    pose proof (Z.sqrtrem_spec m' Hm') as Hspec.
    change (IntDef.Z.sqrtrem m') with (Z.sqrtrem m') in Hcore.
    destruct (Z.sqrtrem m') as [q' r']. injection Hcore as <- _ _. lia.
Qed.

Lemma leb_zero_signed z : signed false z -> SFleb (S754_zero false) z = true.
Proof.
  destruct z as [s | s | | s m e]; cbn [signed]; try contradiction;
    intros ->; reflexivity.
Qed.

(** The square root of a sum of two squared differences of finite numbers
    is a number that is at least 0. *)
Lemma sqrt_sum_squares_nonneg (x1 y1 x2 y2 : float) :
  is_finite x1 = true -> is_finite y1 = true ->
  is_finite x2 = true -> is_finite y2 = true ->
  (0 <=? sqrt ((x2 - x1) * (x2 - x1) + (y2 - y1) * (y2 - y1)))%float = true.
Proof.
  intros Hx1 Hy1 Hx2 Hy2.
  assert (Hfin : forall f, is_finite f = true -> finite_number (Prim2SF f)).
  { intros f Hf. destruct (finite_spec f Hf) as [(s & ->) | (s & m & e & ->)];
      exact I. }
  rewrite leb_spec, sqrt_spec, add_spec, !mul_spec, !sub_spec.
  apply leb_zero_signed, SFsqrt_signed, SFadd_signed;
    apply SFmul_square, SFsub_number; auto.
Qed.

(** ** Using the measuring sketch *)

Module BodyPoseUse.
Import BodyPose BodyPoseTerms.

(** X2. Between pixel positions [measureDistance] is a number that is at
    least 0: never NaN, never negative. *)
Theorem measureDistance_is_a_length {A B} `{Located A} `{Located B} (a : A) (b : B) :
  on_canvas a -> on_canvas b ->
  exists d, measureDistance (obj a) (obj b) = obj d /\ (0 <=? d)%float = true.
Proof.
  intros [Hax Hay] [Hbx Hby]. eexists. split; [reflexivity |].
  now apply sqrt_sum_squares_nonneg.
Qed.

Lemma measureDistance_is_a_length_witness :
  exists d,
    measureDistance (obj (mkPoint 320 240)) (obj (Samples.seen_at 400 300)) = obj d /\
    (0 <=? d)%float = true.
Proof.
  apply measureDistance_is_a_length; split; reflexivity.
Defined.

Lemma measureDistance_self_witness :
  measureDistance (obj (Samples.seen_at 400 300)) (obj (Samples.seen_at 400 300))
  = obj 0%float.
Proof.
  apply BodyPoseFacts.measureDistance_self. split; reflexivity.
Defined.

(** X3. The callback overwrites what the sketch knows about the scene:
    after [gotPoses] the stored detections, boxes and centroid depend on
    the delivery alone, every stored box is present, there are as many as
    detections with a box, and the tracked index, the reference point and
    the video switch are untouched. *)
Theorem gotPoses_overwrites (results : ref (list Detection)) (s1 s2 : State) :
  poses (gotPoses results s1) = poses (gotPoses results s2)
  /\ boundingBoxes (gotPoses results s1) = boundingBoxes (gotPoses results s2)
  /\ centroid (gotPoses results s1) = centroid (gotPoses results s2)
  /\ gotPoses results (gotPoses results s1) = gotPoses results s1
  /\ Forall (fun b => truthy b = true) (boundingBoxes (gotPoses results s1))
  /\ boundingBoxes (gotPoses results s1) =
     map obj (flat_map (fun p => match box p with obj b => [b] | _ => [] end)
                (or_else results []))
  /\ (boundingBoxes (gotPoses results s1) = [] <->
      first_box (or_else results []) = None)
  /\ bodyPointIndex (gotPoses results s1) = bodyPointIndex s1
  /\ fixedPoint (gotPoses results s1) = fixedPoint s1
  /\ showVideo (gotPoses results s1) = showVideo s1.
Proof.
  assert (Hboxes : forall ps,
             filter not_nullish (map box ps) =
             map obj (flat_map (fun p => match box p with obj b => [b] | _ => [] end) ps)).
  { induction ps as [| p ps IH]; [reflexivity |].
    cbn [map filter flat_map]. destruct (box p); cbn; now rewrite IH. }
  repeat split; cbn [gotPoses boundingBoxes].
  - apply Forall_forall. intros b Hb. apply filter_In in Hb. apply Hb.
  - apply Hboxes.
  - rewrite Hboxes. induction (or_else results []) as [| p ps IH]; [reflexivity |].
    cbn [flat_map first_box]. destruct (box p); cbn; auto; discriminate.
  - rewrite Hboxes. induction (or_else results []) as [| p ps IH]; [reflexivity |].
    cbn [flat_map first_box]. destruct (box p); cbn; auto; discriminate.
Qed.

Section WithHost.
Context {host : Host}.

Lemma step_poses e s : (exists ps, poses s = obj ps) -> exists ps, poses (step e s) = obj ps.
Proof.
  intros (ps & Hps). destruct e as [results | mouseX mouseY | key keyCode]; cbn [step].
  - now eexists.
  - now exists ps.
  - exists ps. unfold keyPressed.
    destruct (String.eqb key " "), (keyCode =? LEFT_ARROW), (keyCode =? RIGHT_ARROW);
      exact Hps.
Qed.

Lemma run_poses es : forall s,
  (exists ps, poses s = obj ps) -> exists ps, poses (run es s) = obj ps.
Proof.
  unfold run. induction es as [| e es IH]; intros s Hs; [exact Hs |].
  cbn [fold_left]. apply IH, step_poses, Hs.
Qed.

(** [draw] in terms of the keypoint it looks up. *)
Lemma draw_lookup s ps : poses s = obj ps ->
  exists r,
    getKeypoint (poses s) (bodyPointIndex s) 0 = returns r /\
    draw s =
    returns match r with
            | obj bp =>
                if (confidenceThreshold <? confidence bp)%float
                then Some (mkMeasurement (bodyPointIndex s)
                             (measureDistance (obj (fixedPoint s)) (obj bp))
                             (measureAngle (obj (fixedPoint s)) (obj bp)))
                else None
            | _ => None
            end.
Proof.
  intros Hps. unfold draw. rewrite Hps. cbn [member bind].
  rewrite getKeypoint_lookup. eexists. split; [reflexivity |]. cbn [bind].
  destruct ps as [| p ps']; [reflexivity |].
  change (0 <? Js.length (p :: ps')) with true. cbv iota.
  match goal with
  | |- context [match ?r with undefined => _ | null => _ | obj _ => _ end] =>
      destruct r as [| | bp]
  end; try reflexivity.
  destruct (confidenceThreshold <? confidence bp)%float; reflexivity.
Qed.

(** X4. However the sketch was used before, [draw] does not throw; it
    measures exactly when [getKeypoint] finds the tracked body point with a
    confidence above the threshold, and then the distance and the angle are
    those from the reference point to that keypoint, both numbers. *)
Theorem draw_measures (es : list Event) :
  let s := run es init in
  exists r,
    getKeypoint (poses s) (bodyPointIndex s) 0 = returns r /\
    draw s =
    returns match r with
            | obj bp =>
                if (confidenceThreshold <? confidence bp)%float
                then Some (mkMeasurement (bodyPointIndex s)
                             (measureDistance (obj (fixedPoint s)) (obj bp))
                             (measureAngle (obj (fixedPoint s)) (obj bp)))
                else None
            | _ => None
            end /\
    (forall m, draw s = returns (Some m) ->
       exists d a, distance m = obj d /\ angle m = obj a).
Proof.
  cbv zeta.
  destruct (run_poses es init (ex_intro _ [] eq_refl)) as (ps & Hps).
  destruct (draw_lookup _ ps Hps) as (r & Hr & Hdraw).
  exists r. split; [exact Hr |]. split; [exact Hdraw |].
  intros m Hm. rewrite Hdraw in Hm.
  destruct r as [| | bp]; try discriminate Hm.
  destruct (confidenceThreshold <? confidence bp)%float; [| discriminate Hm].
  injection Hm as <-. now eexists _, _.
Qed.

(** X5. When the first detected person carries the 17 keypoints of the
    MoveNet schema, the tracked body point is always found, whatever keys
    were pressed: [getKeypoint] returns a keypoint of that person. *)
Theorem tracked_point_found (es : list Event) p rest ks :
  poses (run es init) = obj (p :: rest) ->
  keypoints p = obj ks ->
  Js.length ks = 17 ->
  exists k,
    getKeypoint (poses (run es init)) (bodyPointIndex (run es init)) 0
    = returns (obj k) /\
    In k ks.
Proof.
  intros Hps Hks Hlen.
  assert (Hi : 0 <= bodyPointIndex (run es init) <= 16)
    by (apply BodyPoseFacts.run_index_range; cbn; lia).
  rewrite getKeypoint_lookup, Hps. cbn [index Z.ltb Z.compare Z.to_nat nth_error].
  rewrite Hks. unfold index.
  destruct (Z.ltb_spec (bodyPointIndex (run es init)) 0) as [Hneg | _]; [lia |].
  destruct (nth_error ks (Z.to_nat (bodyPointIndex (run es init)))) as [k |] eqn:Hk.
  - exists k. split; [reflexivity |]. eapply nth_error_In, Hk.
  - apply nth_error_None in Hk. unfold Js.length in Hlen. lia.
Qed.

(** X6. The last click wins.  [mouseClicked] moves the reference point to
    the mouse position and changes nothing else; the next [draw] measures
    from there, and after a click exactly on the tracked keypoint (a pixel
    position seen with enough confidence) it measures distance 0 and, as
    [Math.atan2] maps the zero vector to 0, angle 0. *)
Theorem click_sets_reference (mouseX mouseY : float) (s : State) :
  (fixedPoint (mouseClicked mouseX mouseY s) = mkPoint mouseX mouseY
   /\ (forall x0 y0, mouseClicked mouseX mouseY (mouseClicked x0 y0 s)
                     = mouseClicked mouseX mouseY s)
   /\ poses (mouseClicked mouseX mouseY s) = poses s
   /\ boundingBoxes (mouseClicked mouseX mouseY s) = boundingBoxes s
   /\ centroid (mouseClicked mouseX mouseY s) = centroid s
   /\ bodyPointIndex (mouseClicked mouseX mouseY s) = bodyPointIndex s
   /\ showVideo (mouseClicked mouseX mouseY s) = showVideo s)
  /\ (forall bp,
        getKeypoint (poses s) (bodyPointIndex s) 0 = returns (obj bp) ->
        (confidenceThreshold <? confidence bp)%float = true ->
        draw (mouseClicked mouseX mouseY s) =
        returns (Some (mkMeasurement (bodyPointIndex s)
                         (measureDistance (obj (mkPoint mouseX mouseY)) (obj bp))
                         (measureAngle (obj (mkPoint mouseX mouseY)) (obj bp)))))
  /\ (forall bp,
        getKeypoint (poses s) (bodyPointIndex s) 0 = returns (obj bp) ->
        (confidenceThreshold <? confidence bp)%float = true ->
        on_canvas bp -> atan2 0 0 = 0%float ->
        draw (mouseClicked (x bp) (y bp) s) =
        returns (Some (mkMeasurement (bodyPointIndex s) (obj 0%float) (obj 0%float)))).
Proof.
  assert (Hdraw : forall mx my bp,
            getKeypoint (poses s) (bodyPointIndex s) 0 = returns (obj bp) ->
            (confidenceThreshold <? confidence bp)%float = true ->
            draw (mouseClicked mx my s) =
            returns (Some (mkMeasurement (bodyPointIndex s)
                             (measureDistance (obj (mkPoint mx my)) (obj bp))
                             (measureAngle (obj (mkPoint mx my)) (obj bp))))).
  { intros mx my bp Hbp Hconf.
    destruct (poses s) as [| | ps] eqn:Hps; try discriminate Hbp.
    destruct (draw_lookup (mouseClicked mx my s) ps Hps) as (r & Hr & Hd).
    cbn [mouseClicked poses bodyPointIndex fixedPoint] in Hr, Hd.
    rewrite Hps, Hbp in Hr. injection Hr as <-. now rewrite Hconf in Hd. }
  split; [repeat split | split].
  - apply Hdraw.
  - intros bp Hbp Hconf [Hx Hy] Hzero.
    rewrite (Hdraw _ _ bp Hbp Hconf). unfold measureDistance, measureAngle.
    cbn [x y Located_Point point_x point_y].
    change (keypoint_x bp) with (x bp). change (keypoint_y bp) with (y bp).
    rewrite (sub_diag _ Hx), (sub_diag _ Hy), Hzero. reflexivity.
Qed.

Lemma press_right key s : LEFT_ARROW <> RIGHT_ARROW ->
  bodyPointIndex (keyPressed key RIGHT_ARROW s) = Z.rem (bodyPointIndex s + 1) 17.
Proof.
  intros Hd. unfold keyPressed. rewrite Z.eqb_refl.
  destruct (Z.eqb_spec RIGHT_ARROW LEFT_ARROW) as [Heq | _];
    [symmetry in Heq; contradiction |].
  now destruct (String.eqb key " ").
Qed.

Lemma press_left key s : LEFT_ARROW <> RIGHT_ARROW ->
  bodyPointIndex (keyPressed key LEFT_ARROW s) = Z.rem (bodyPointIndex s - 1 + 17) 17.
Proof.
  intros Hd. unfold keyPressed. rewrite Z.eqb_refl.
  destruct (Z.eqb_spec LEFT_ARROW RIGHT_ARROW) as [Heq | _]; [contradiction |].
  now destruct (String.eqb key " ").
Qed.

(** The index after [n] presses of an arrow key. *)
Lemma presses_right key n : LEFT_ARROW <> RIGHT_ARROW -> forall s,
  0 <= bodyPointIndex s <= 16 ->
  bodyPointIndex (Nat.iter n (keyPressed key RIGHT_ARROW) s)
  = (bodyPointIndex s + Z.of_nat n) mod 17.
Proof.
  intros Hd s Hi. induction n as [| n IH].
  - change (Nat.iter 0 (keyPressed key RIGHT_ARROW) s) with s.
    change (Z.of_nat 0) with 0. rewrite Z.add_0_r. symmetry.
    apply Z.mod_small. lia.
  - rewrite Nat.iter_succ, press_right, IH by exact Hd.
    pose proof (Z.mod_pos_bound (bodyPointIndex s + Z.of_nat n) 17 ltac:(lia)).
    rewrite Z.rem_mod_nonneg by lia.
    rewrite Zplus_mod_idemp_l. f_equal. lia.
Qed.

Lemma presses_left key n : LEFT_ARROW <> RIGHT_ARROW -> forall s,
  0 <= bodyPointIndex s <= 16 ->
  bodyPointIndex (Nat.iter n (keyPressed key LEFT_ARROW) s)
  = (bodyPointIndex s - Z.of_nat n) mod 17.
Proof.
  intros Hd s Hi. induction n as [| n IH].
  - change (Nat.iter 0 (keyPressed key LEFT_ARROW) s) with s.
    change (Z.of_nat 0) with 0. rewrite Z.sub_0_r. symmetry.
    apply Z.mod_small. lia.
  - rewrite Nat.iter_succ, press_left, IH by exact Hd.
    pose proof (Z.mod_pos_bound (bodyPointIndex s - Z.of_nat n) 17 ltac:(lia)).
    rewrite Z.rem_mod_nonneg by lia.
    replace ((bodyPointIndex s - Z.of_nat n) mod 17 - 1 + 17)
      with ((bodyPointIndex s - Z.of_nat n) mod 17 + 16) by lia.
    rewrite Zplus_mod_idemp_l.
    replace (bodyPointIndex s - Z.of_nat n + 16)
      with (bodyPointIndex s - Z.of_nat (S n) + 1 * 17) by lia.
    apply Z_mod_plus_full.
Qed.

(** X7. The arrow keys walk around the 17 keypoints: after any presses of
    the right arrow the index is the old one plus their number modulo 17,
    and minus their number for the left arrow; so 17 presses of either, or
    one of each, lead back to the same keypoint.  No key press touches the
    detections, the boxes, the centroid or the reference point. *)
Theorem arrow_keys_cycle :
  LEFT_ARROW <> RIGHT_ARROW ->
  forall key s, 0 <= bodyPointIndex s <= 16 ->
    (forall n,
        bodyPointIndex (Nat.iter n (keyPressed key RIGHT_ARROW) s)
        = (bodyPointIndex s + Z.of_nat n) mod 17 /\
        bodyPointIndex (Nat.iter n (keyPressed key LEFT_ARROW) s)
        = (bodyPointIndex s - Z.of_nat n) mod 17)
    /\ bodyPointIndex (Nat.iter 17 (keyPressed key RIGHT_ARROW) s) = bodyPointIndex s
    /\ bodyPointIndex (Nat.iter 17 (keyPressed key LEFT_ARROW) s) = bodyPointIndex s
    /\ keyPressed key RIGHT_ARROW (keyPressed key LEFT_ARROW s) = s
    /\ keyPressed key LEFT_ARROW (keyPressed key RIGHT_ARROW s) = s
    /\ (forall keyCode,
          poses (keyPressed key keyCode s) = poses s /\
          boundingBoxes (keyPressed key keyCode s) = boundingBoxes s /\
          centroid (keyPressed key keyCode s) = centroid s /\
          fixedPoint (keyPressed key keyCode s) = fixedPoint s).
Proof.
  intros Hd key s Hi.
  split; [| split; [| split; [| split; [| split]]]].
  - intros n. split; [now apply presses_right | now apply presses_left].
  - rewrite presses_right by assumption.
    change (Z.of_nat 17) with (1 * 17). rewrite Z_mod_plus_full.
    apply Z.mod_small. lia.
  - rewrite presses_left by assumption.
    replace (bodyPointIndex s - Z.of_nat 17) with (bodyPointIndex s + (-1) * 17) by lia.
    rewrite Z_mod_plus_full. apply Z.mod_small. lia.
  - pose proof (press_left key s Hd) as Hl.
    pose proof (press_right key (keyPressed key LEFT_ARROW s) Hd) as Hr.
    rewrite Hl, (BodyPoseFacts.rem_prev _ Hi) in Hr.
    assert (Hidx : bodyPointIndex (keyPressed key RIGHT_ARROW (keyPressed key LEFT_ARROW s))
                   = bodyPointIndex s).
    { rewrite Hr. destruct (Z.eqb_spec (bodyPointIndex s) 0) as [-> | Hnz];
        [reflexivity |]. rewrite Z.sub_add. apply Z.rem_small. lia. }
    revert Hidx. unfold keyPressed. rewrite !Z.eqb_refl.
    destruct (Z.eqb_spec LEFT_ARROW RIGHT_ARROW) as [Heq | _]; [contradiction |].
    destruct (Z.eqb_spec RIGHT_ARROW LEFT_ARROW) as [Heq | _];
      [symmetry in Heq; contradiction |].
    destruct s as [ps bbs c sv i fp].
    destruct (String.eqb key " ");
      cbn [bodyPointIndex set_bodyPointIndex set_showVideo showVideo poses
           boundingBoxes centroid fixedPoint];
      intros ->; now rewrite ?negb_involutive.
  - pose proof (press_right key s Hd) as Hr.
    pose proof (press_left key (keyPressed key RIGHT_ARROW s) Hd) as Hl.
    rewrite Hr, (BodyPoseFacts.rem_next _ Hi) in Hl.
    assert (Hidx : bodyPointIndex (keyPressed key LEFT_ARROW (keyPressed key RIGHT_ARROW s))
                   = bodyPointIndex s).
    { rewrite Hl. destruct (Z.eqb_spec (bodyPointIndex s) 16) as [-> | Hnz];
        [reflexivity |].
      replace (bodyPointIndex s + 1 - 1 + 17) with (bodyPointIndex s + 1 * 17) by lia.
      rewrite Z.rem_add by lia. apply Z.rem_small. lia. }
    revert Hidx. unfold keyPressed. rewrite !Z.eqb_refl.
    destruct (Z.eqb_spec LEFT_ARROW RIGHT_ARROW) as [Heq | _]; [contradiction |].
    destruct (Z.eqb_spec RIGHT_ARROW LEFT_ARROW) as [Heq | _];
      [symmetry in Heq; contradiction |].
    destruct s as [ps bbs c sv i fp].
    destruct (String.eqb key " ");
      cbn [bodyPointIndex set_bodyPointIndex set_showVideo showVideo poses
           boundingBoxes centroid fixedPoint];
      intros ->; now rewrite ?negb_involutive.
  - intros keyCode. unfold keyPressed.
    destruct (String.eqb key " "), (keyCode =? LEFT_ARROW), (keyCode =? RIGHT_ARROW);
      repeat split.
Qed.

End WithHost.

Lemma draw_measures_witness :
  exists d a,
    distance (mkMeasurement 2 (obj 100%float) (obj 0%float)) = obj d /\
    angle (mkMeasurement 2 (obj 100%float) (obj 0%float)) = obj a.
Proof.
  destruct (@draw_measures browser
              [Detected (obj [Samples.person 100 300]); Mouse 200 200])
    as (r & _ & _ & Hnumbers).
  apply Hnumbers. reflexivity.
Defined.

Lemma click_sets_reference_witness :
  @draw browser
    (mouseClicked 300 200 (gotPoses (obj [Samples.person 100 300]) init))
  = returns (Some (mkMeasurement 2 (obj 0%float) (obj 0%float))).
Proof.
  apply (proj2 (proj2 (@click_sets_reference browser 300 200
                         (gotPoses (obj [Samples.person 100 300]) init)))
           (Samples.seen_at 300 200));
    try reflexivity.
  split; reflexivity.
Defined.

Lemma tracked_point_found_witness :
  exists k,
    getKeypoint
      (poses (@run browser [Detected (obj [Samples.person 100 300]); Key "a" 39] init))
      (bodyPointIndex (@run browser [Detected (obj [Samples.person 100 300]); Key "a" 39] init))
      0
    = returns (obj k) /\
    In k (Samples.seen_at 320 100 :: repeat (Samples.seen_at 300 200) 9
          ++ Samples.seen_at 400 300 :: repeat (Samples.seen_at 300 400) 6).
Proof.
  apply (@tracked_point_found browser
           [Detected (obj [Samples.person 100 300]); Key "a" 39]
           (Samples.person 100 300) []);
    reflexivity.
Defined.

Lemma arrow_keys_cycle_witness :
  bodyPointIndex (Nat.iter 17 (@keyPressed browser "a" 39) init) = bodyPointIndex init
  /\ @keyPressed browser " " 39 (@keyPressed browser " " 37 init) = init.
Proof.
  pose proof (@arrow_keys_cycle browser ltac:(discriminate) "a"%string init
                ltac:(cbn; lia)) as Ha.
  pose proof (@arrow_keys_cycle browser ltac:(discriminate) " "%string init
                ltac:(cbn; lia)) as Hs.
  split.
  - exact (proj1 (proj2 Ha)).
  - exact (proj1 (proj2 (proj2 (proj2 Hs)))).
Defined.

End BodyPoseUse.

(** ** Using the hand sketch *)

Module HandPoseUse.
Import HandPose HandPoseTerms.

Lemma circles_complete hs :
  Forall complete hs ->
  circles hs =
  returns (flat_map (fun hand => map (fun k => (x k, y k)) (keypoints_of hand)) hs).
Proof.
  induction 1 as [| hand hs (ks & Hks) _ IH]; [reflexivity |].
  cbn [circles flat_map]. unfold keypoints_of. rewrite Hks, IH. reflexivity.
Qed.

Lemma circles_returns hs cs : circles hs = returns cs -> Forall complete hs.
Proof.
  revert cs. induction hs as [| hand hs IH]; intros cs Hcs; [constructor |].
  cbn [circles] in Hcs.
  destruct (keypoints hand) as [| | ks] eqn:Hks; try discriminate Hcs.
  cbn [member bind] in Hcs.
  destruct (circles hs) as [rest | e] eqn:Hrest; [| discriminate Hcs].
  constructor; [now exists ks | now apply (IH rest)].
Qed.

(** X12. [draw] of the hand sketch paints one circle per keypoint, hand by
    hand in the order delivered, when [hands] is an array of hands that
    each carry a keypoints array; in every other case - [hands] is absent,
    or some hand lacks its keypoints - it throws. *)
Theorem draw_circles_or_throws (s : State) :
  (forall hs, hands s = obj hs -> Forall complete hs ->
      draw s =
      returns (flat_map (fun hand => map (fun k => (x k, y k)) (keypoints_of hand)) hs))
  /\ (forall cs, draw s = returns cs ->
        exists hs,
          hands s = obj hs /\ Forall complete hs /\
          cs = flat_map (fun hand => map (fun k => (x k, y k)) (keypoints_of hand)) hs /\
          List.length cs = list_sum (map (fun hand => List.length (keypoints_of hand)) hs))
  /\ (draw s = throws TypeError <->
      ~ exists hs, hands s = obj hs /\ Forall complete hs).
Proof.
  assert (Hret : forall cs, draw s = returns cs ->
            exists hs, hands s = obj hs /\ Forall complete hs /\
              cs = flat_map (fun hand => map (fun k => (x k, y k)) (keypoints_of hand)) hs).
  { intros cs Hcs. unfold draw in Hcs.
    destruct (hands s) as [| | hs]; try discriminate Hcs. cbn [member bind] in Hcs.
    pose proof (circles_returns hs cs Hcs) as Hall.
    rewrite (circles_complete hs Hall) in Hcs. injection Hcs as <-.
    now exists hs. }
  split; [| split; [| split]].
  - intros hs Hhs Hall. unfold draw. rewrite Hhs. cbn [member bind].
    now apply circles_complete.
  - intros cs Hcs. destruct (Hret cs Hcs) as (hs & Hhs & Hall & ->).
    exists hs. repeat split; try assumption.
    clear. induction hs as [| hand hs IH]; [reflexivity |].
    cbn [flat_map map list_sum]. now rewrite length_app, length_map, IH.
  - intros Hthrow (hs & Hhs & Hall).
    unfold draw in Hthrow. rewrite Hhs in Hthrow. cbn [member bind] in Hthrow.
    rewrite (circles_complete hs Hall) in Hthrow. discriminate Hthrow.
  - intros Hnot. destruct (draw s) as [cs | []] eqn:Hd; [| reflexivity].
    destruct (Hret cs eq_refl) as (hs & Hhs & Hall & _).
    exfalso. apply Hnot. now exists hs.
Qed.

Lemma draw_circles_or_throws_witness :
  draw (gotHands (obj [Samples.person 100 300; Samples.hidden_person]) init)
  = returns (flat_map (fun hand => map (fun k => (x k, y k)) (keypoints_of hand))
               [Samples.person 100 300; Samples.hidden_person]).
Proof.
  apply (proj1 (draw_circles_or_throws
                  (gotHands (obj [Samples.person 100 300; Samples.hidden_person]) init))).
  - reflexivity.
  - repeat constructor; now eexists.
Defined.

End HandPoseUse.

(** ** What the hand-raiser sketch shows *)

Module HandRaiserPainting.
Import Canvas HandRaiser HandRaiserReadings.
Module Paint := HandRaiserCanvas.

Lemma messages_app c1 c2 :
  Paint.messages (c1 ++ c2) = Paint.messages c1 ++ Paint.messages c2.
Proof. unfold Paint.messages. apply flat_map_app. Qed.

Lemma dash_after_app c1 c2 d :
  Paint.dash_after (c1 ++ c2) d = Paint.dash_after c2 (Paint.dash_after c1 d).
Proof. unfold Paint.dash_after. apply fold_left_app. Qed.

(** [showPoint] only paints. *)
Lemma showPoint_quiet point colour d :
  Paint.messages (Paint.showPoint point colour) = [] /\
  Paint.dash_after (Paint.showPoint point colour) d = d.
Proof.
  destruct point as [| | pt]; cbn; auto.
Qed.

(** One [draw] with what it paints, in terms of the reading it takes. *)
Lemma draw_painted s ps : poses s = obj ps ->
  exists s' calls,
    Paint.draw s = returns (s', calls) /\
    draw s = returns s' /\
    (exists n, Paint.messages calls = repeat "Threshold crossed!"%string n /\
               Z.of_nat n = crossCount s' - crossCount s) /\
    Paint.dash_after calls [] = [] /\
    match reading ps with
    | None => s' = s /\ Paint.marks calls = []
    | Some above =>
        lastAboveThreshold s' = above /\
        In (text [Lit "Threshold Crosses: "; Int (crossCount s')] 10 30) calls /\
        In (text [Lit "Position: ";
                  Lit (if lastAboveThreshold s' then "ABOVE" else "BELOW");
                  Lit " threshold"] 10 90) calls
    end.
Proof.
  intros Hps. rewrite (HandRaiserRuns.draw_reading s ps Hps).
  unfold Paint.draw, reading, confident. rewrite Hps. cbn [member bind].
  rewrite !getKeypoint_lookup. cbn [bind].
  assert (Hnone : exists s' calls,
            returns (s, background (Gray 255)
                        :: (if showVideo s then [image_video 0 0 canvas_width canvas_height] else []))
            = returns (s', calls) /\
            returns s = returns s' /\
            (exists n, Paint.messages calls = repeat "Threshold crossed!"%string n /\
                       Z.of_nat n = crossCount s' - crossCount s) /\
            Paint.dash_after calls [] = [] /\ s' = s /\ Paint.marks calls = []).
  { eexists _, _. split; [reflexivity |]. split; [reflexivity |]. split.
    - exists 0%nat. rewrite Z.sub_diag. now destruct (showVideo s).
    - now destruct (showVideo s). }
  destruct ps as [| p ps']; [exact Hnone |].
  change (0 <? Js.length (p :: ps')) with true. cbv iota.
  repeat match goal with
         | |- context [match ?r with undefined => _ | null => _ | obj _ => _ end] =>
             destruct r as [| | ?k]
         end; try exact Hnone.
  match goal with |- context [if ?b then _ else _] => destruct b end;
    [| exact Hnone].
  cbn [Paint.checkThresholdCross].
  eexists _, _. split; [reflexivity |]. split; [now rewrite Hps |].
  cbn [crossCount lastAboveThreshold].
  repeat rewrite messages_app. repeat rewrite dash_after_app.
  destruct (showPoint_quiet (obj k) (Rgb 255 0 0) (Paint.dash_after
             (background (Gray 255)
              :: (if showVideo s then [image_video 0 0 canvas_width canvas_height] else [])) []))
    as (Hl1 & Hd1).
  rewrite Hl1, Hd1.
  match goal with |- context [Paint.dash_after (Paint.showPoint (obj k0) ?c) ?d] =>
    destruct (showPoint_quiet (obj k0) c d) as (Hl2 & Hd2) end.
  rewrite Hl2, Hd2.
  split; [| split; [| split; [reflexivity | split]]].
  - destruct ((y k0 <? y k)%float && negb (lastAboveThreshold s)).
    + exists 1%nat. split; [now destruct (showVideo s) | lia].
    + exists 0%nat. split; [now destruct (showVideo s) | lia].
  - destruct (showVideo s), ((y k0 <? y k)%float && negb (lastAboveThreshold s));
      reflexivity.
  - apply in_or_app. right. cbn [Paint.displayThresholdData].
    apply in_or_app. left. cbn. tauto.
  - apply in_or_app. right. cbn [Paint.displayThresholdData].
    apply in_or_app. right. cbn. tauto.
Qed.



(** A whole event sequence with everything it paints and logs. *)
Lemma run_painted es : forall s ps, poses s = obj ps ->
  exists s' calls,
    Paint.run es s = returns (s', calls) /\
    run es s = returns s' /\
    (exists n, Paint.messages calls = repeat "Threshold crossed!"%string n /\
               Z.of_nat n = crossCount s' - crossCount s) /\
    Paint.dash_after calls [] = [].
Proof.
  induction es as [| e es IH]; intros s ps Hps.
  - exists s, []. cbn. repeat split. exists 0%nat. split; [reflexivity | lia].
  - destruct e as [results | | key]; cbn [Paint.run run step bind].
    + apply (IH (gotPoses results s) (or_else results []) eq_refl).
    + destruct (draw_painted s ps Hps)
        as (s1 & c1 & Hp & Hd & (n1 & Hm1 & Hn1) & Hdash & _).
      rewrite Hp, Hd. cbn [bind fst snd].
      assert (Hps1 : exists ps1, poses s1 = obj ps1).
      { rewrite (HandRaiserRuns.draw_reading s ps Hps) in Hd. injection Hd as <-.
        destruct (reading ps); now exists ps. }
      destruct Hps1 as (ps1 & Hps1).
      destruct (IH s1 ps1 Hps1) as (s' & c2 & Hp2 & Hr2 & (n2 & Hm2 & Hn2) & Hdash2).
      rewrite Hp2. cbn [bind fst snd]. exists s', (c1 ++ c2).
      repeat split; try assumption.
      * exists (n1 + n2)%nat. rewrite messages_app, Hm1, Hm2, repeat_app.
        split; [reflexivity | lia].
      * now rewrite dash_after_app, Hdash.
    + assert (Hk : poses (keyPressed key s) = obj ps /\
                   crossCount (keyPressed key s) = crossCount s)
        by (unfold keyPressed; now destruct (String.eqb key " ")).
      destruct Hk as (Hk & Hc). rewrite <- Hc. apply (IH _ ps Hk).
Qed.

(** X14. Over any event sequence from the start the console holds exactly
    one "Threshold crossed!" message per counted crossing and no other
    message, and the line style is solid whenever a [draw] has returned. *)
Theorem one_message_per_crossing (es : list Event) :
  exists s' calls,
    Paint.run es init = returns (s', calls) /\
    run es init = returns s' /\
    Paint.messages calls =
      repeat "Threshold crossed!"%string (Z.to_nat (crossCount s')) /\
    Paint.dash_after calls [] = [].
Proof.
  destruct (run_painted es init [] eq_refl)
    as (s' & calls & Hp & Hr & (n & Hmsg & Hn) & Hd).
  exists s', calls. repeat split; try assumption.
  rewrite Hmsg. f_equal. unfold init in Hn. cbn [crossCount] in Hn. lia.
Qed.

End HandRaiserPainting.

(** ** What the measuring sketch shows *)

Module BodyPosePainting.
Import Canvas BodyPose BodyPoseTerms BodyPoseCanvasTerms.
Module Paint := BodyPoseCanvas.

Lemma index_skipn {A} (xs : list A) (i : Z) : 0 <= i ->
  index xs i =
  match skipn (Z.to_nat i) xs with
  | a :: _ => obj a
  | [] => undefined
  end.
Proof.
  intros Hi. unfold index.
  destruct (Z.ltb_spec i 0) as [Hneg | _]; [lia |].
  generalize (Z.to_nat i). clear. intros n. revert xs.
  induction n as [| n IH]; intros [| a xs]; cbn; auto.
Qed.

Lemma skipn_next {A} (xs : list A) (i : Z) : 0 <= i ->
  skipn (Z.to_nat (i + 1)) xs = tl (skipn (Z.to_nat i) xs).
Proof.
  intros Hi. replace (Z.to_nat (i + 1)) with (S (Z.to_nat i)) by lia.
  generalize (Z.to_nat i). clear. intros n. revert xs.
  induction n as [| n IH]; intros [| a xs]; cbn [skipn tl]; auto.
  apply (IH xs).
Qed.

(** The loop over the keypoints of the person at [personIndex]. *)
Lemma keypoint_loop_shown ps personIndex p :
  index ps personIndex = obj p ->
  forall remaining pointIndex, 0 <= pointIndex ->
    Paint.keypoint_loop (obj ps) personIndex pointIndex remaining =
    returns
      (flat_map tagged_point
         (filter (fun ik => (confidenceThreshold <? confidence (snd ik))%float)
            (firstn remaining
               (indexed (skipn (Z.to_nat pointIndex) (or_else (keypoints p) []))
                        pointIndex)))).
Proof.
  intros Hp. induction remaining as [| n IH]; intros i Hi; [reflexivity |].
  cbn [Paint.keypoint_loop]. rewrite getKeypoint_lookup, Hp. cbn [bind].
  rewrite (IH (i + 1)) by lia. cbn [bind].
  rewrite (skipn_next _ i Hi).
  destruct (keypoints p) as [| | ks] eqn:Hks; cbn [or_else].
  - rewrite !skipn_nil. cbn [tl indexed]. now rewrite firstn_nil.
  - rewrite !skipn_nil. cbn [tl indexed]. now rewrite firstn_nil.
  - rewrite (index_skipn ks i Hi).
    destruct (skipn (Z.to_nat i) ks) as [| k rest].
    + cbn [or_null tl indexed firstn filter flat_map app]. now rewrite firstn_nil.
    + cbn [or_null tl indexed firstn filter snd].
      destruct (confidenceThreshold <? confidence k)%float; reflexivity.
Qed.

(** The loop over the persons from [personIndex] on. *)
Lemma person_loop_shown ps : forall persons personIndex,
  0 <= personIndex ->
  persons = skipn (Z.to_nat personIndex) ps ->
  Paint.person_loop (obj ps) persons personIndex =
  returns (flat_map (fun p => flat_map tagged_point (shown_points p)) persons).
Proof.
  induction persons as [| p rest IH]; intros j Hj Hskip; [reflexivity |].
  cbn [Paint.person_loop].
  assert (Hp : index ps j = obj p) by now rewrite (index_skipn ps j Hj), <- Hskip.
  rewrite (keypoint_loop_shown ps j p Hp 17%nat 0) by lia. cbn [bind].
  rewrite (IH (j + 1)) by (try lia; now rewrite (skipn_next ps j Hj), <- Hskip).
  reflexivity.
Qed.

Lemma push_depth_app c1 c2 d :
  push_depth (c1 ++ c2) d = push_depth c2 (push_depth c1 d).
Proof. unfold push_depth. apply fold_left_app. Qed.

Lemma showPoint_depth point index colour d :
  push_depth (Paint.showPoint point index colour) d = d.
Proof. destruct point as [| | pt], index as [| | i]; reflexivity. Qed.

Lemma outlines_depth boxes : forall i d,
  push_depth (Paint.forEach Paint.outline boxes i) d = d.
Proof.
  induction boxes as [| b boxes IH]; intros i d; [reflexivity |].
  cbn [Paint.forEach]. rewrite push_depth_app, IH.
  destruct b as [| | bx]; cbn [Paint.outline push_depth fold_left]; lia.
Qed.

Lemma shown_depth (iks : list (Z * Keypoint)) d :
  push_depth (flat_map tagged_point iks) d = d.
Proof.
  induction iks as [| ik iks IH]; [reflexivity |].
  cbn [flat_map]. rewrite push_depth_app.
  change (tagged_point ik)
    with (Paint.showPoint (obj (snd ik)) (obj (fst ik)) (Rgb 0 255 0)).
  now rewrite showPoint_depth.
Qed.

(** X15. [showAllPoints] never throws once detections are stored.  After
    the outlines of the stored boxes it paints, person by person and in
    index order, exactly the keypoints among a person's first 17 whose
    confidence is above the threshold, each labelled with its own index;
    a person without keypoints contributes nothing.  Every [push] is
    closed by a [pop]. *)
Theorem showAllPoints_shows_confident_points (s : State) (ps : list Detection) :
  poses s = obj ps ->
  exists calls,
    Paint.showAllPoints s = returns calls /\
    calls = Paint.forEach Paint.outline (boundingBoxes s) 0
            ++ flat_map (fun p => flat_map tagged_point (shown_points p)) ps /\
    (forall p i k, In p ps -> In (i, k) (shown_points p) ->
        0 <= i < 17 /\
        (confidenceThreshold <? confidence k)%float = true /\
        index (or_else (keypoints p) []) i = obj k /\
        In (circle (x k) (y k) 20) calls /\
        In (text [Int i] (x k) (y k)) calls) /\
    (forall d, push_depth calls d = d).
Proof.
  intros Hps. unfold Paint.showAllPoints. rewrite Hps. cbn [member bind].
  rewrite (person_loop_shown ps ps 0) by (try lia; reflexivity). cbn [bind].
  eexists. split; [reflexivity |]. split; [reflexivity |]. split.
  - intros p i k Hp Hik.
    assert (Hidx : forall (xs : list Keypoint) j n i0 k0,
               0 <= j -> In (i0, k0) (firstn n (indexed xs j)) ->
               j <= i0 < j + Z.of_nat n /\ index xs (i0 - j) = obj k0).
    { induction xs as [| a xs IH]; intros j n i0 k0 Hj Hin.
      - destruct n; contradiction Hin.
      - destruct n as [| n]; [contradiction Hin |].
        cbn [indexed firstn] in Hin. destruct Hin as [[= <- <-] | Hin].
        + rewrite Z.sub_diag. split; [lia | reflexivity].
        + destruct (IH (j + 1) n i0 k0 ltac:(lia) Hin) as (Hr & Hi0).
          split; [lia |].
          rewrite (index_skipn (a :: xs) (i0 - j)) by lia.
          rewrite (index_skipn xs (i0 - (j + 1))) in Hi0 by lia.
          replace (Z.to_nat (i0 - j)) with (S (Z.to_nat (i0 - (j + 1)))) by lia.
          exact Hi0. }
    unfold shown_points in Hik. apply filter_In in Hik. destruct Hik as (Hin & Hconf).
    destruct (Hidx _ 0 17%nat i k ltac:(lia) Hin) as (Hr & Hi).
    rewrite Z.sub_0_r in Hi. cbn [snd] in Hconf.
    assert (Hcalls : forall c, In c (tagged_point (i, k)) ->
               In c (Paint.forEach Paint.outline (boundingBoxes s) 0
                     ++ flat_map (fun p => flat_map tagged_point (shown_points p)) ps)).
    { intros c Hc. apply in_or_app. right. apply in_flat_map. exists p.
      split; [exact Hp |]. apply in_flat_map. exists (i, k). split; [| exact Hc].
      unfold shown_points. apply filter_In. now split. }
    repeat split; try assumption; try lia; apply Hcalls; cbn; tauto.
  - intros d. rewrite push_depth_app, outlines_depth.
    induction ps as [| p ps' IH] in |- *; [reflexivity |].
    cbn [flat_map]. rewrite push_depth_app, shown_depth. apply IH.
Qed.

Lemma showAllPoints_shows_confident_points_witness :
  exists calls,
    Paint.showAllPoints (gotPoses (obj [Samples.unsure_person]) init) = returns calls /\
    calls = Paint.forEach Paint.outline
              (boundingBoxes (gotPoses (obj [Samples.unsure_person]) init)) 0
            ++ flat_map (fun p => flat_map tagged_point (shown_points p))
                 [Samples.unsure_person].
Proof.
  destruct (showAllPoints_shows_confident_points
              (gotPoses (obj [Samples.unsure_person]) init)
              [Samples.unsure_person] eq_refl) as (calls & Hret & Hcalls & _).
  exists calls. now split.
Defined.

(** X16. [showCentroid] always paints its marker, the guard never failing:
    at the midpoint of the first box, and at the corner (0, 0) of the
    canvas when the last delivery had no box. *)
Theorem showCentroid_always_paints (results : ref (list Detection)) (s : State) :
  let c := match first_box (or_else results []) with
           | Some b => mkPoint ((xMin b + xMax b) / 2) ((yMin b + yMax b) / 2)
           | None => mkPoint 0 0
           end in
  In (circle (x c) (y c) 15) (Paint.showCentroid (gotPoses results s)) /\
  In (text [Lit "C"] (x c) (y c)) (Paint.showCentroid (gotPoses results s)) /\
  In (text [Lit "Centroid: ("; Rounded (x c); Lit ", "; Rounded (y c); Lit ")"]
           (x c) (y c + 15)%float)
     (Paint.showCentroid (gotPoses results s)).
Proof.
  cbv zeta. unfold Paint.showCentroid. cbn [Paint.isValidPoint truthy].
  rewrite (BodyPoseFacts.centroid_gotPoses results s).
  destruct (first_box (or_else results [])); cbn; tauto.
Qed.

Section WithHost.
Context {host : Host}.




End WithHost.


End BodyPosePainting.
